(** * ParallelPlay: the /control endpoint of the synchronisation server

    A shallow embedding of [control.js] (the Express server shipped in
    [00_StartApp.command]): the path store ([readPaths], [savePaths]), the
    remote player client ([sendCommand], [getVLCStatus]) and the [/control]
    handler with its switch over commands.

    Conventions of the embedding.
    - JavaScript numbers are IEEE 754 binary64 values, taken from the
      standard library's [SpecFloat] (precision 53, emax 1024).
    - JavaScript strings are the byte sequences of their UTF-8 text; a
      surrogate without its partner, which UTF-8 has no place for, is
      written as the three bytes ED A0..BF 80..BF of its code unit.
    - Fields of the request body and of a player's status document are JSON
      scalars (or missing); nested objects and arrays are not modelled.
    - The handler runs in a state monad over a [world]: the content of
      [paths.txt], the answers the two players will give to status queries,
      and the trace of commands and delays issued so far.  A computation
      finishes normally, by [return res.json(...)], or by an exception.
    - [logAction] and [logError] only append to the log files, which nothing
      reads back; they have no counterpart here. *)

From Stdlib Require Import ZArith List String Ascii Bool Lia.
From Stdlib Require Import Floats.SpecFloat DecimalString.
Import ListNotations.
Local Open Scope string_scope.
Local Open Scope Z_scope.

(** ** Numbers *)

Module Num.

Definition number := spec_float.

Definition prec := 53.
Definition emax := 1024.

Definition nan : number := S754_nan.
Definition zero : number := S754_zero false.

(** The number nearest to an integer, and to a ratio of positive integers. *)
Definition of_Z (z : Z) : number := binary_normalize prec emax z 0 false.

Definition of_ratio (neg : bool) (n d : positive) : number :=
  SFdiv prec emax (S754_finite neg n 0) (S754_finite false d 0).

(** The number nearest to [(-1)^neg * m * 10^e]. *)
Definition of_decimal (neg : bool) (m e : Z) : number :=
  match m with
  | Zpos p =>
      if 0 <=? e then binary_normalize prec emax (cond_Zopp neg (m * 10 ^ e)) 0 neg
      else of_ratio neg p (Z.to_pos (10 ^ (- e)))
  | _ => S754_zero neg
  end.

Definition add : number -> number -> number := SFadd prec emax.
Definition sub : number -> number -> number := SFsub prec emax.
Definition abs : number -> number := SFabs.
Definition ltb : number -> number -> bool := SFltb.
Definition leb : number -> number -> bool := SFleb.
Definition eqb : number -> number -> bool := SFeqb.

Definition is_nan (x : number) : bool :=
  match x with S754_nan => true | _ => false end.

Definition is_zero (x : number) : bool :=
  match x with S754_zero _ => true | _ => false end.

Definition is_finite (x : number) : bool :=
  match x with S754_zero _ | S754_finite _ _ _ => true | _ => false end.

(** [Math.max] of two numbers: NaN if either is, and +0 above -0. *)
Definition max (x y : number) : number :=
  match SFcompare x y with
  | None => nan
  | Some Lt => y
  | Some Gt => x
  | Some Eq => match x with S754_zero true => y | _ => x end
  end.

End Num.
Export Num.

Definition half : number := Eval vm_compute in of_ratio false 1 2.
Definition one : number := Eval vm_compute in of_Z 1.
Definition ten : number := Eval vm_compute in of_Z 10.

(** ** Strings and the conversions between strings and numbers *)

Module Str.

Definition LF : ascii := ascii_of_nat 10.
Definition CR : ascii := ascii_of_nat 13.

Definition code (c : ascii) : Z := Z.of_nat (nat_of_ascii c).

Definition is_digit (c : ascii) : bool := (48 <=? code c) && (code c <=? 57).

Fixpoint drop (n : nat) (s : string) : string :=
  match n, s with
  | S k, String _ r => drop k r
  | _, _ => s
  end.

Fixpoint rev_onto (s acc : string) : string :=
  match s with
  | EmptyString => acc
  | String c r => rev_onto r (String c acc)
  end.

Definition rev (s : string) : string := rev_onto s EmptyString.

Definition bytes (l : list nat) : string :=
  fold_right (fun n s => String (ascii_of_nat n) s) EmptyString l.

(** WhiteSpace and LineTerminator code points, as UTF-8 byte sequences:
    TAB LF VT FF CR SP, U+00A0, U+1680, U+2000..U+200A, U+2028, U+2029,
    U+202F, U+205F, U+3000, U+FEFF. *)
Definition white_space : list string :=
  map bytes
    [[9]; [10]; [11]; [12]; [13]; [32]; [194; 160]; [225; 154; 128];
     [226; 128; 128]; [226; 128; 129]; [226; 128; 130]; [226; 128; 131];
     [226; 128; 132]; [226; 128; 133]; [226; 128; 134]; [226; 128; 135];
     [226; 128; 136]; [226; 128; 137]; [226; 128; 138];
     [226; 128; 168]; [226; 128; 169]; [226; 128; 175]; [226; 129; 159];
     [227; 128; 128]; [239; 187; 191]]%nat.

(** The first of [toks] that [s] starts with, if any. *)
Fixpoint leading (toks : list string) (s : string) : option string :=
  match toks with
  | [] => None
  | t :: ts => if prefix t s then Some t else leading ts s
  end.

Fixpoint trim_start_from (toks : list string) (fuel : nat) (s : string) : string :=
  match fuel with
  | O => s
  | S k =>
      match leading toks s with
      | Some t => trim_start_from toks k (drop (length t) s)
      | None => s
      end
  end.

Definition trimStart (s : string) : string :=
  trim_start_from white_space (length s) s.

Definition trimEnd (s : string) : string :=
  rev (trim_start_from (map rev white_space) (length s) (rev s)).

Definition trim (s : string) : string := trimEnd (trimStart s).

(** A maximal run of decimal digits: its value, its length, and the rest. *)
Fixpoint digits (s : string) (acc count : Z) : Z * Z * string :=
  match s with
  | String c r =>
      if is_digit c then digits r (10 * acc + (code c - 48)) (count + 1)
      else (acc, count, s)
  | EmptyString => (acc, count, s)
  end.

Definition sign_of (s : string) : bool * string :=
  match s with
  | String "-" r => (true, r)
  | String "+" r => (false, r)
  | _ => (false, s)
  end.

(** ExponentPart, when one is there: [e] or [E], a sign, at least one digit. *)
Definition exponent (s : string) : Z * string :=
  match s with
  | String c r =>
      if (c =? "e")%char || (c =? "E")%char then
        let (neg, r1) := sign_of r in
        let '(v, n, r2) := digits r1 0 0 in
        if 0 <? n then (cond_Zopp neg v, r2) else (0, s)
      else (0, s)
  | EmptyString => (0, s)
  end.

(** The longest prefix of [s] that is a StrDecimalLiteral, as a number, and
    what follows it. *)
Definition decimal_literal (s : string) : option (number * string) :=
  let (neg, s1) := sign_of s in
  if prefix "Infinity" s1 then Some (S754_infinity neg, drop 8 s1)
  else
    let '(ip, ni, s2) := digits s1 0 0 in
    let '(m, nf, s3) :=
      match s2 with
      | String "." r => let '(m, nf, s3) := digits r ip 0 in
                        if 0 <? ni + nf then (m, nf, s3) else (ip, 0, s2)
      | _ => (ip, 0, s2)
      end in
    if 0 <? ni + nf then
      let (e, s4) := exponent s3 in Some (of_decimal neg m (e - nf), s4)
    else None.

Definition digit_in (radix : Z) (c : ascii) : option Z :=
  let v := if is_digit c then code c - 48
           else if (97 <=? code c) && (code c <=? 102) then code c - 87
           else if (65 <=? code c) && (code c <=? 70) then code c - 55
           else radix in
  if v <? radix then Some v else None.

Fixpoint radix_digits (radix : Z) (s : string) (acc : Z) : option Z :=
  match s with
  | EmptyString => Some acc
  | String c r =>
      match digit_in radix c with
      | Some v => radix_digits radix r (radix * acc + v)
      | None => None
      end
  end.

(** NonDecimalIntegerLiteral: [0x], [0o] or [0b] and at least one digit. *)
Definition non_decimal (s : string) : option number :=
  match s with
  | String "0" (String c (String d r)) =>
      let radix := if (c =? "x")%char || (c =? "X")%char then 16
                   else if (c =? "o")%char || (c =? "O")%char then 8
                   else if (c =? "b")%char || (c =? "B")%char then 2 else 0 in
      if radix =? 0 then None
      else option_map of_Z (radix_digits radix (String d r) 0)
  | _ => None
  end.

(** StringToNumber of ECMAScript. *)
Definition StringToNumber (s : string) : number :=
  let t := trim s in
  match t with
  | EmptyString => zero
  | _ =>
      match non_decimal t with
      | Some x => x
      | None =>
          match decimal_literal t with
          | Some (x, EmptyString) => x
          | _ => nan
          end
      end
  end.

(** [parseFloat] on a string. *)
Definition parseFloat (s : string) : number :=
  match decimal_literal (trimStart s) with
  | Some (x, _) => x
  | None => nan
  end.

(** [Number::toString]: the shortest decimal that reads back as the number. *)

Definition decimal (z : Z) : string :=
  NilZero.string_of_uint (N.to_uint (Z.to_N z)).

Fixpoint zeros (n : nat) : string :=
  match n with O => EmptyString | S k => String "0" (zeros k) end.

(** [m * 2^e * 10^t] as a fraction. *)
Definition scaled (m : positive) (e t : Z) : Z * Z :=
  (Zpos m * 2 ^ Z.max e 0 * 10 ^ Z.max t 0, 2 ^ Z.max (- e) 0 * 10 ^ Z.max (- t) 0).

Fixpoint first_above (fuel : nat) (m : positive) (e n : Z) : Z :=
  match fuel with
  | O => n
  | S k => let (p, q) := scaled m e (- n) in
           if p <? q then n else first_above k m e (n + 1)
  end.

(** The [n] with [10^(n-1) <= m * 2^e < 10^n]. *)
Definition decimal_exponent (m : positive) (e : Z) : Z :=
  first_above 4 m e ((Zpos (digits2_pos m) + e - 1) * 30103 / 100000).

(** The [k]-digit candidates around [m * 2^e] and whether they read back. *)
Definition candidate (m : positive) (e n k : Z) : option (Z * Z) :=
  let x := S754_finite false m e in
  let (p, q) := scaled m e (k - n) in
  let lo := p / q in
  let hi := lo + 1 in
  let ok_lo := eqb (of_decimal false lo (n - k)) x in
  let ok_hi := eqb (of_decimal false hi (n - k)) x in
  let pick_hi := if hi =? 10 ^ k then (10 ^ (k - 1), n + 1) else (hi, n) in
  match ok_lo, ok_hi with
  | true, true =>
      match 2 * (p mod q) ?= q with
      | Lt => Some (lo, n)
      | Gt => Some pick_hi
      | Eq => if Z.even lo then Some (lo, n) else Some pick_hi
      end
  | true, false => Some (lo, n)
  | false, true => Some pick_hi
  | false, false => None
  end.

Fixpoint shortest (fuel : nat) (m : positive) (e n k : Z) : Z * Z :=
  match fuel with
  | O => (fst (scaled m e (k - n)) / snd (scaled m e (k - n)), n)
  | S f =>
      match candidate m e n k with
      | Some r => r
      | None => shortest f m e n (k + 1)
      end
  end.

Definition layout (d : string) (n : Z) : string :=
  let k := Z.of_nat (length d) in
  if (k <=? n) && (n <=? 21) then d ++ zeros (Z.to_nat (n - k))
  else if (0 <? n) && (n <=? 21) then
    substring 0 (Z.to_nat n) d ++ "." ++ drop (Z.to_nat n) d
  else if (-6 <? n) && (n <=? 0) then "0." ++ zeros (Z.to_nat (- n)) ++ d
  else
    let ex := (if n - 1 <? 0 then "e-" else "e+") ++ decimal (Z.abs (n - 1)) in
    if k =? 1 then d ++ ex else substring 0 1 d ++ "." ++ drop 1 d ++ ex.

Definition NumberToString (x : number) : string :=
  match x with
  | S754_nan => "NaN"
  | S754_zero _ => "0"
  | S754_infinity s => if s then "-Infinity" else "Infinity"
  | S754_finite s m e =>
      let (d, n) := shortest 17 m e (decimal_exponent m e) 1 in
      (if s then "-" else EmptyString) ++ layout (decimal d) n
  end.

(** [x.toFixed(1)]. *)
Definition toFixed1 (x : number) : string :=
  match x with
  | S754_zero _ => "0.0"
  | S754_finite s m e =>
      if leb (of_decimal false 1 21) (abs x) then NumberToString x
      else
        let (p, q) := scaled m e 1 in
        let d := decimal ((2 * p + q) / (2 * q)) in
        let d := if (length d <=? 1)%nat then "0" ++ d else d in
        (if s then "-" else EmptyString)
          ++ substring 0 (length d - 1) d ++ "." ++ drop (length d - 1) d
  | _ => NumberToString x
  end.

(** A surrogate without its partner: the byte ED followed by a byte of
    A0..BF.  (In UTF-8 proper ED is followed by a byte of 80..9F, and a
    surrogate pair is the four bytes of its code point.) *)
Definition surrogate (a b : ascii) : bool :=
  (code a =? 237) && (160 <=? code b) && (code b <=? 191).

Fixpoint lone_surrogate (s : string) : bool :=
  match s with
  | EmptyString => false
  | String a t =>
      match t with
      | EmptyString => false
      | String b _ => surrogate a b || lone_surrogate t
      end
  end.

(** U+FFFD, the replacement character. *)
Definition replacement : string := bytes [239; 191; 189]%nat.

(** The text as UTF-8 encodes it, and as a file written with it reads
    back: each lone surrogate becomes U+FFFD. *)
Fixpoint toUTF8 (s : string) : string :=
  match s with
  | EmptyString => EmptyString
  | String a t =>
      match t with
      | EmptyString => s
      | String b u =>
          if surrogate a b
          then replacement
                 ++ match u with
                    | EmptyString => EmptyString
                    | String _ r => toUTF8 r
                    end
          else String a (toUTF8 t)
      end
  end.

(** The encoding of [encodeURIComponent], which applies to a string
    without lone surrogate: every byte but those of the unreserved marks
    and the alphanumerics is percent-encoded. *)
Definition unreserved (c : ascii) : bool :=
  is_digit c
  || ((65 <=? code c) && (code c <=? 90))
  || ((97 <=? code c) && (code c <=? 122))
  || existsb (Ascii.eqb c) (list_ascii_of_string "-_.!~*'()").

Definition hex_digit (n : Z) : ascii :=
  ascii_of_nat (Z.to_nat (if n <? 10 then 48 + n else 55 + n)).

Fixpoint encodeURIComponent (s : string) : string :=
  match s with
  | EmptyString => EmptyString
  | String c r =>
      if unreserved c then String c (encodeURIComponent r)
      else String "%" (String (hex_digit (code c / 16))
                         (String (hex_digit (code c mod 16)) (encodeURIComponent r)))
  end.

(** [s.split(/\r?\n/)]. *)
Definition push (c : ascii) (ls : list string) : list string :=
  match ls with
  | l :: r => String c l :: r
  | [] => [String c EmptyString]
  end.

Fixpoint split_lines (s : string) : list string :=
  match s with
  | EmptyString => [EmptyString]
  | String c r =>
      if (c =? LF)%char then EmptyString :: split_lines r
      else if (c =? CR)%char && prefix (String LF EmptyString) r then split_lines r
      else push c (split_lines r)
  end.

Definition startsWith (s pat : string) : bool := prefix pat s.

(** [s.replace(pat, EmptyString)] for a string pattern: the first occurrence
    of [pat] is removed. *)
Fixpoint remove_first (pat s : string) : string :=
  if prefix pat s then drop (length pat) s
  else match s with
       | EmptyString => s
       | String c r => String c (remove_first pat r)
       end.

End Str.

(** ** JavaScript values *)

Module JS.

Inductive value :=
  | undefined
  | null
  | JBool (b : bool)
  | JNum (n : number)
  | JStr (s : string).

(** An object with scalar properties; its keys are distinct. *)
Definition object := list (string * value).

(** What [res.json()] resolves to: a scalar or an object. *)
Inductive json :=
  | Scalar (v : value)
  | Object (fields : object).

Definition ToBoolean (v : value) : bool :=
  match v with
  | undefined | null => false
  | JBool b => b
  | JNum n => negb (is_zero n || is_nan n)
  | JStr s => negb (String.eqb s EmptyString)
  end.

Definition ToNumber (v : value) : number :=
  match v with
  | undefined => nan
  | null => zero
  | JBool b => if b then one else zero
  | JNum n => n
  | JStr s => Str.StringToNumber s
  end.

Definition ToString (v : value) : string :=
  match v with
  | undefined => "undefined"
  | null => "null"
  | JBool b => if b then "true" else "false"
  | JNum n => Str.NumberToString n
  | JStr s => s
  end.

(** [a === b]. *)
Definition strict_eq (a b : value) : bool :=
  match a, b with
  | undefined, undefined | null, null => true
  | JBool x, JBool y => Bool.eqb x y
  | JNum x, JNum y => Num.eqb x y
  | JStr x, JStr y => String.eqb x y
  | _, _ => false
  end.

(** [a || b]. *)
Definition or_else (a b : value) : value := if ToBoolean a then a else b.

(** [a + b]: concatenation as soon as one side is a string. *)
Definition plus (a b : value) : value :=
  match a, b with
  | JStr _, _ | _, JStr _ => JStr (ToString a ++ ToString b)
  | _, _ => JNum (add (ToNumber a) (ToNumber b))
  end.

(** [a - b]. *)
Definition minus (a b : value) : value := JNum (sub (ToNumber a) (ToNumber b)).

(** [Math.max(a, b)]. *)
Definition Math_max (a b : value) : number := Num.max (ToNumber a) (ToNumber b).

(** [isNaN(v)]. *)
Definition isNaN (v : value) : bool := is_nan (ToNumber v).

(** [v > n] against a number. *)
Definition gt (v : value) (n : number) : bool := ltb n (ToNumber v).

(** [parseFloat(v)]. *)
Definition parseFloat (v : value) : number := Str.parseFloat (ToString v).

(** [o.k] on an object: [undefined] when the key is missing. *)
Fixpoint get (o : object) (k : string) : value :=
  match o with
  | [] => undefined
  | (k', v) :: r => if String.eqb k' k then v else get r k
  end.

(** Truthiness of a document, and [d.k] where [d] is not nullish. *)
Definition truthy (d : json) : bool :=
  match d with
  | Scalar v => ToBoolean v
  | Object _ => true
  end.

Definition nullish (d : json) : bool :=
  match d with
  | Scalar undefined | Scalar null => true
  | _ => false
  end.

Definition field (d : json) (k : string) : value :=
  match d with
  | Scalar _ => undefined
  | Object o => get o k
  end.

Definition is_undefined (v : value) : bool :=
  match v with undefined => true | _ => false end.

End JS.
Export JS.

(** ** The world of the server *)

Inductive participant := Master | Slave.

(** The commands of the players' HTTP interface, with their parameters as
    they appear in the URL. *)
Inductive command :=
  | in_enqueue (input : string)
  | in_play (input : string)
  | pl_next
  | pl_play
  | pl_pause
  | pl_stop
  | rate (val : string)
  | seek (val : string)
  | fullscreen.

Inductive event :=
  | Send (p : participant) (c : command)
  | Wait (ms : nat).

Definition VLC_URL_MASTER := "http://192.168.127.177:8080/requests/status.json".
Definition VLC_URL_SLAVE := "http://192.168.127.141:8080/requests/status.json".

Definition VLC_URL (p : participant) : string :=
  match p with Master => VLC_URL_MASTER | Slave => VLC_URL_SLAVE end.

(** The URL each command is sent to.  [in_play] is the one command addressed
    to the URL with [/status.json] removed. *)
Definition url (p : participant) (c : command) : string :=
  match c with
  | in_enqueue f => VLC_URL p ++ "?command=in_enqueue&input=" ++ f
  | in_play f =>
      substring 0 (length (VLC_URL p) - 12) (VLC_URL p) ++ "?command=in_play&input=" ++ f
  | pl_next => VLC_URL p ++ "?command=pl_next"
  | pl_play => VLC_URL p ++ "?command=pl_play"
  | pl_pause => VLC_URL p ++ "?command=pl_pause"
  | pl_stop => VLC_URL p ++ "?command=pl_stop"
  | rate v => VLC_URL p ++ "?command=rate&val=" ++ v
  | seek v => VLC_URL p ++ "?command=seek&val=" ++ v
  | fullscreen => VLC_URL p ++ "?command=fullscreen"
  end.

Record world := {
  paths_txt : option string;   (* decoded text of PATHS_FILE, when it exists *)
  master_answers : list json;  (* what the master's next status queries return *)
  slave_answers : list json;   (* the same for the slave *)
  trace : list event           (* commands sent and delays waited, oldest first *)
}.

Inductive exn := TypeError | URIError.

Inductive response :=
  | message (text : string)    (* res.json({ message }) *)
  | error (text : string).     (* res.json({ error }) *)

(** How a piece of the handler ends: it goes on with a value, it returns
    after [res.json], or it throws. *)
Inductive step (A : Type) :=
  | Next (a : A)
  | Return (r : response)
  | Throw (e : exn).
Arguments Next {A} a.
Arguments Return {A} r.
Arguments Throw {A} e.

Definition M (A : Type) := world -> step A * world.

Definition ret {A} (a : A) : M A := fun w => (Next a, w).

Definition bind {A B} (m : M A) (f : A -> M B) : M B :=
  fun w => match m w with
           | (Next a, w') => f a w'
           | (Return r, w') => (Return r, w')
           | (Throw e, w') => (Throw e, w')
           end.

Notation "x <- m ;; k" := (bind m (fun x => k))
  (at level 61, m at next level, right associativity).
Notation "m ;; k" := (bind m (fun _ => k))
  (at level 61, right associativity).

Definition respond {A} (r : response) : M A := fun w => (Return r, w).
Definition throw {A} (e : exn) : M A := fun w => (Throw e, w).

Definition when (b : bool) (m : M unit) : M unit := if b then m else ret tt.

Definition emit (e : event) : M unit :=
  fun w => (Next tt, {| paths_txt := paths_txt w;
                        master_answers := master_answers w;
                        slave_answers := slave_answers w;
                        trace := trace w ++ [e] |}).

(** [await new Promise((resolve) => setTimeout(resolve, ms))]. *)
Definition delay (ms : nat) : M unit := emit (Wait ms).

(** [sendCommand]: the request is issued; failures are caught and logged
    inside, and no caller looks at the text returned. *)
Definition sendCommand (p : participant) (c : command) : M unit := emit (Send p c).

(** [getVLCStatus]: the parsed status document, [null] when the request or
    the parsing fails (here: when the player has no answer left). *)
Definition getVLCStatus (p : participant) : M json :=
  fun w =>
    match p with
    | Master =>
        (Next (hd (Scalar null) (master_answers w)),
         {| paths_txt := paths_txt w; master_answers := tl (master_answers w);
            slave_answers := slave_answers w; trace := trace w |})
    | Slave =>
        (Next (hd (Scalar null) (slave_answers w)),
         {| paths_txt := paths_txt w; master_answers := master_answers w;
            slave_answers := tl (slave_answers w); trace := trace w |})
    end.

(** [d.k]: a TypeError when [d] is [null] or [undefined]. *)
Definition member (d : json) (k : string) : M value :=
  if nullish d then throw TypeError else ret (field d k).

(** [d?.k]. *)
Definition member_opt (d : json) (k : string) : value :=
  if nullish d then undefined else field d k.

(** [encodeURIComponent(s)]: a URIError when [s] holds a lone surrogate. *)
Definition encodeURIComponent (s : string) : M string :=
  if Str.lone_surrogate s then throw URIError else ret (Str.encodeURIComponent s).

(** ** The path store *)

Definition MASTER_KEY := "MASTER_VIDEO_PATH=".
Definition SLAVE_KEY := "SLAVE_VIDEO_PATH=".

Record paths := { masterFile : string; slaveFile : string }.

(** The [forEach] of [readPaths]: a later line overrides an earlier one. *)
Definition read_line (acc : paths) (line : string) : paths :=
  let acc := if Str.startsWith line MASTER_KEY
             then {| masterFile := Str.remove_first MASTER_KEY line;
                     slaveFile := slaveFile acc |}
             else acc in
  if Str.startsWith line SLAVE_KEY
  then {| masterFile := masterFile acc;
          slaveFile := Str.remove_first SLAVE_KEY line |}
  else acc.

Definition no_paths : paths := {| masterFile := EmptyString; slaveFile := EmptyString |}.

Definition parse_paths (content : string) : paths :=
  fold_left read_line (Str.split_lines content) no_paths.

(** What [readPaths] finds in a world. *)
Definition stored (w : world) : paths :=
  match paths_txt w with
  | Some content => parse_paths content
  | None => no_paths
  end.

Definition readPaths : M paths := fun w => (Next (stored w), w).

Definition paths_record (masterFile slaveFile : value) : string :=
  MASTER_KEY ++ ToString masterFile ++ String Str.LF (SLAVE_KEY ++ ToString slaveFile).

(** [fs.writeFileSync] writes the text in UTF-8. *)
Definition savePaths (masterFile slaveFile : value) : M unit :=
  fun w => (Next tt, {| paths_txt := Some (Str.toUTF8 (paths_record masterFile slaveFile));
                        master_answers := master_answers w;
                        slave_answers := slave_answers w;
                        trace := trace w |}).

(** ** The cases of the switch

    Each case ends with the [responseMessage] it leaves for the final
    [res.json({ message: responseMessage })], unless it returns a response
    of its own or throws. *)

Definition already_or_now (b : bool) : string := if b then "already" else "now".

Definition fullscreen_report (fullscreenMaster fullscreenSlave : bool) : string :=
  "Fullscreen: Master - " ++ already_or_now fullscreenMaster
  ++ " ON, Slave - " ++ already_or_now fullscreenSlave ++ " ON.".

Definition missing_paths (p : paths) : bool :=
  negb (ToBoolean (JStr (masterFile p))) || negb (ToBoolean (JStr (slaveFile p))).

(** The block of [play] run on a fresh start only.  The paths are those
    of [readPaths], decoded from the file: [encodeURIComponent] has no
    lone surrogate to refuse. *)
Definition cold_start (p : paths) : M unit :=
  sendCommand Master (in_enqueue (Str.encodeURIComponent (masterFile p))) ;;
  sendCommand Slave (in_enqueue (Str.encodeURIComponent (slaveFile p))) ;;
  sendCommand Master pl_next ;;
  sendCommand Slave pl_next ;;
  sendCommand Master (rate "1.0") ;;
  sendCommand Slave (rate "1.0") ;;
  sendCommand Master (seek "0") ;;
  sendCommand Slave (seek "0") ;;
  delay 1000.

Definition play : M string :=
  p <- readPaths ;;
  if missing_paths p then respond (error "File paths not found. Save them first.")
  else
    statusMaster <- getVLCStatus Master ;;
    statusSlave <- getVLCStatus Slave ;;
    let masterPaused := strict_eq (member_opt statusMaster "state") (JStr "paused") in
    let slavePaused := strict_eq (member_opt statusSlave "state") (JStr "paused") in
    let resumingFromPause := masterPaused || slavePaused in
    when (negb resumingFromPause) (cold_start p) ;;
    sendCommand Master pl_play ;;
    sendCommand Slave pl_play ;;
    delay 300 ;;
    updatedStatusMaster <- getVLCStatus Master ;;
    updatedStatusSlave <- getVLCStatus Slave ;;
    fm <- member updatedStatusMaster "fullscreen" ;;
    let fullscreenMaster := strict_eq fm (JBool true) in
    fs <- member updatedStatusSlave "fullscreen" ;;
    let fullscreenSlave := strict_eq fs (JBool true) in
    when (negb fullscreenMaster) (sendCommand Master fullscreen) ;;
    when (negb fullscreenSlave) (sendCommand Slave fullscreen) ;;
    ret (if resumingFromPause
         then "Playback resumed from paused position. "
              ++ fullscreen_report fullscreenMaster fullscreenSlave
         else "Playback started in sync after 1-second buffer. Rate set to 1.0x. "
              ++ fullscreen_report fullscreenMaster fullscreenSlave).

Definition status_unavailable : response := error "Could not retrieve VLC status.".

Definition pause : M string :=
  statusMaster <- getVLCStatus Master ;;
  statusSlave <- getVLCStatus Slave ;;
  if negb (truthy statusMaster) || negb (truthy statusSlave) then respond status_unavailable
  else
    stateMaster <- member statusMaster "state" ;;
    let isMasterPlaying := strict_eq stateMaster (JStr "playing") in
    stateSlave <- member statusSlave "state" ;;
    let isSlavePlaying := strict_eq stateSlave (JStr "playing") in
    tm <- member statusMaster "time" ;;
    let masterTime := or_else tm (JNum zero) in
    ts <- member statusSlave "time" ;;
    let slaveTime := or_else ts (JNum zero) in
    let maxTime := Math_max masterTime slaveTime in
    sendCommand Master (seek (Str.NumberToString maxTime)) ;;
    sendCommand Slave (seek (Str.NumberToString maxTime)) ;;
    when isMasterPlaying (sendCommand Master pl_pause) ;;
    when isSlavePlaying (sendCommand Slave pl_pause) ;;
    ret ("Both players synced to " ++ Str.NumberToString maxTime
         ++ " sec and paused (no toggling).").

Definition stop : M string :=
  sendCommand Master pl_stop ;;
  sendCommand Slave pl_stop ;;
  ret "Both players stopped.".

Definition invalid_seek : response := error "Invalid or missing seek value.".

Definition seek_case (seekValue : value) : M string :=
  if ToBoolean seekValue && negb (isNaN seekValue) then
    sendCommand Master (seek (ToString seekValue)) ;;
    sendCommand Slave (seek (ToString seekValue)) ;;
    ret "Seek command sent."
  else respond invalid_seek.

Definition skip_forward : M string :=
  statusMaster <- getVLCStatus Master ;;
  statusSlave <- getVLCStatus Slave ;;
  if negb (truthy statusMaster) || negb (truthy statusSlave) then respond status_unavailable
  else
    tm <- member statusMaster "time" ;;
    let masterTime := plus (or_else tm (JNum zero)) (JNum ten) in
    ts <- member statusSlave "time" ;;
    let slaveTime := plus (or_else ts (JNum zero)) (JNum ten) in
    sendCommand Master (seek (ToString masterTime)) ;;
    sendCommand Slave (seek (ToString slaveTime)) ;;
    ret "Skipped forward 10 seconds.".

Definition skip_backward : M string :=
  statusMaster <- getVLCStatus Master ;;
  statusSlave <- getVLCStatus Slave ;;
  if negb (truthy statusMaster) || negb (truthy statusSlave) then respond status_unavailable
  else
    tm <- member statusMaster "time" ;;
    let masterTime := Math_max (JNum zero) (minus (or_else tm (JNum zero)) (JNum ten)) in
    ts <- member statusSlave "time" ;;
    let slaveTime := Math_max (JNum zero) (minus (or_else ts (JNum zero)) (JNum ten)) in
    sendCommand Master (seek (Str.NumberToString masterTime)) ;;
    sendCommand Slave (seek (Str.NumberToString slaveTime)) ;;
    ret "Skipped backward 10 seconds.".

(** [wakeUp] works on the paths of the request completed from the store. *)
Definition wakeUp (masterFile slaveFile : value) : M string :=
  if ToBoolean masterFile && ToBoolean slaveFile then
    inputMaster <- encodeURIComponent (ToString masterFile) ;;
    sendCommand Master (in_enqueue inputMaster) ;;
    inputSlave <- encodeURIComponent (ToString slaveFile) ;;
    sendCommand Slave (in_enqueue inputSlave) ;;
    delay 300 ;;
    sendCommand Master pl_next ;;
    sendCommand Slave pl_next ;;
    sendCommand Master (rate "1.0") ;;
    sendCommand Slave (rate "1.0") ;;
    sendCommand Master (seek "0") ;;
    sendCommand Slave (seek "0") ;;
    delay 1000 ;;
    sendCommand Master pl_play ;;
    sendCommand Slave pl_play ;;
    statusMaster <- getVLCStatus Master ;;
    statusSlave <- getVLCStatus Slave ;;
    fm <- member statusMaster "fullscreen" ;;
    when (negb (ToBoolean fm)) (sendCommand Master fullscreen) ;;
    fs <- member statusSlave "fullscreen" ;;
    when (negb (ToBoolean fs)) (sendCommand Slave fullscreen) ;;
    ret "Wake-up completed: media loaded, rate set, playback started smoothly."
  else respond (error "File paths not found. Save them first.").

Definition fullscreen_case : M string :=
  delay 300 ;;
  statusMaster <- getVLCStatus Master ;;
  statusSlave <- getVLCStatus Slave ;;
  fm <- member statusMaster "fullscreen" ;;
  let fullscreenMaster := strict_eq fm (JBool true) in
  fs <- member statusSlave "fullscreen" ;;
  let fullscreenSlave := strict_eq fs (JBool true) in
  when (negb fullscreenMaster) (sendCommand Master fullscreen) ;;
  when (negb fullscreenSlave) (sendCommand Slave fullscreen) ;;
  ret ("Both players playing. " ++ fullscreen_report fullscreenMaster fullscreenSlave).

(** *** sync *)

(** [statusX && typeof statusX.time !== "undefined"], as a truth value. *)
Definition has_time (d : json) : bool :=
  truthy d && negb (is_undefined (field d "time")).

Record polled := {
  statusMaster : json; statusSlave : json; masterOk : bool; slaveOk : bool
}.

(** The retry loop: [retries] further attempts, leaving the loop as soon as
    both statuses carry a time. *)
Fixpoint poll (retries : nat) (last : polled) : M polled :=
  match retries with
  | O => ret last
  | S k =>
      sm <- getVLCStatus Master ;;
      ss <- getVLCStatus Slave ;;
      let now := {| statusMaster := sm; statusSlave := ss;
                    masterOk := has_time sm; slaveOk := has_time ss |} in
      if masterOk now && slaveOk now then ret now
      else delay 200 ;; poll k now
  end.

(** A recovery load of [sync]; [file] is a path of [readPaths]. *)
Definition reload (p : participant) (file : string) : M json :=
  sendCommand p (in_play (Str.encodeURIComponent file)) ;;
  delay 350 ;;
  getVLCStatus p.

(** The statuses after the retries and one recovery load of the participant
    that gave no time. *)
Definition recover (p : paths) (r : polled) : M (json * json) :=
  if negb (masterOk r) && negb (slaveOk r) then
    respond (error "Both VLC systems are unreachable.")
  else if negb (masterOk r) then
    sm <- reload Master (masterFile p) ;;
    if negb (has_time sm) then
      respond (error "Master VLC is unreachable or failed to reload.")
    else ret (sm, statusSlave r)
  else if negb (slaveOk r) then
    ss <- reload Slave (slaveFile p) ;;
    if negb (has_time ss) then
      respond (error "Slave VLC is unreachable or failed to reload.")
    else ret (statusMaster r, ss)
  else ret (statusMaster r, statusSlave r).

(** A participant that is not [playing] gets its file loaded again. *)
Definition wake (p : participant) (file : string) (status : json) : M json :=
  st <- member status "state" ;;
  if negb (strict_eq st (JStr "playing")) then reload p file else ret status.

(** Everything of [sync] up to the two statuses whose times are compared. *)
Definition acquire : M (json * json) :=
  p <- readPaths ;;
  if missing_paths p then respond (error "File paths not found. Save them first.")
  else
    r <- poll 3 {| statusMaster := Scalar undefined; statusSlave := Scalar undefined;
                   masterOk := false; slaveOk := false |} ;;
    st <- recover p r ;;
    sm <- wake Master (masterFile p) (fst st) ;;
    ss <- wake Slave (slaveFile p) (snd st) ;;
    ret (sm, ss).

Definition threshold : number := half.

(** The comparison of the two times.  Where the difference is within the
    threshold the case ends without [break] or [return]. *)
Definition correct (masterTime slaveTime : number) : M unit :=
  if ltb threshold (Num.abs (sub masterTime slaveTime)) then
    (if ltb masterTime slaveTime then
       sendCommand Master (seek (Str.NumberToString (add slaveTime one) ++ " "))
     else if ltb slaveTime masterTime then
       sendCommand Slave (seek (Str.NumberToString (add masterTime one)))
     else ret tt) ;;
    sendCommand Master pl_play ;;
    sendCommand Slave pl_play ;;
    let finalTime := add (Num.max masterTime slaveTime) one in
    respond (message ("Sync complete. Both players are now playing at ~"
                      ++ Str.toFixed1 finalTime ++ " sec."))
  else ret tt.

Definition sync : M unit :=
  st <- acquire ;;
  tm <- member (fst st) "time" ;;
  let masterTime := parseFloat tm in
  ts <- member (snd st) "time" ;;
  let slaveTime := parseFloat ts in
  correct masterTime slaveTime.

Definition invalid_speed : response :=
  error "Invalid speed value. Must be a positive number.".

Definition valid_speed (speed : value) : bool :=
  ToBoolean speed && negb (isNaN speed) && gt speed zero.

Definition setSpeed (body : object) : M string :=
  let speed := get body "speed" in
  if valid_speed speed then
    sendCommand Master (rate (ToString speed)) ;;
    sendCommand Slave (rate (ToString speed)) ;;
    delay 200 ;;
    ret ("Speed set to " ++ ToString speed ++ "x on both players.")
  else respond invalid_speed.

Definition resetSpeed : M string :=
  sendCommand Master (rate "1.0") ;;
  sendCommand Slave (rate "1.0") ;;
  delay 200 ;;
  ret "Speed reset to 1.0x on both players.".

(** [savePaths], and the read back that follows for the log.  The write is
    taken to succeed, so the [catch] around it never runs. *)
Definition savePaths_case (masterFile slaveFile : value) : M string :=
  if ToBoolean masterFile && ToBoolean slaveFile then
    savePaths masterFile slaveFile ;;
    _ <- readPaths ;;
    respond (message "Paths saved successfully.")
  else respond (error "Missing file paths.").

(** ** The handler of POST /control *)

Definition dispatch (body : object) (command masterFile slaveFile seekValue : value)
  : M string :=
  match command with
  | JStr c =>
      if String.eqb c "play" then play
      else if String.eqb c "pause" then pause
      else if String.eqb c "stop" then stop
      else if String.eqb c "seek" then seek_case seekValue
      else if String.eqb c "skip_forward" then skip_forward
      else if String.eqb c "skip_backward" then skip_backward
      else if String.eqb c "wakeUp" then wakeUp masterFile slaveFile
      else if String.eqb c "fullscreen" then fullscreen_case
      else if String.eqb c "sync" then sync ;; setSpeed body
      else if String.eqb c "setSpeed" then setSpeed body
      else if String.eqb c "resetSpeed" then resetSpeed
      else if String.eqb c "savePaths" then savePaths_case masterFile slaveFile
      else respond (error "Invalid command.")
  | _ => respond (error "Invalid command.")
  end.

(** The paths of the request, [slaveFile] falling back on [masterFile]. *)
Definition requested (body : object) : value * value :=
  let master := get body "masterFile" in
  let slave := get body "slaveFile" in
  (master, if negb (ToBoolean slave) then master else slave).

(** The same, completed from the store. *)
Definition resolved (body : object) (p : paths) : value * value :=
  (or_else (fst (requested body)) (JStr (masterFile p)),
   or_else (snd (requested body)) (JStr (slaveFile p))).

Definition handler (body : object) : M string :=
  let command := get body "command" in
  let seekValue := get body "seekValue" in
  if negb (strict_eq command (JStr "savePaths")) then
    p <- readPaths ;;
    let (master, slave) := resolved body p in
    if negb (ToBoolean master) || negb (ToBoolean slave) then
      respond (error "No file paths found. Please save file paths first.")
    else dispatch body command master slave seekValue
  else
    let (master, slave) := requested body in
    dispatch body command master slave seekValue.

(** What the caller of the endpoint observes: one response, or none when
    the handler's promise is rejected. *)
Inductive outcome :=
  | Responded (r : response)
  | Uncaught (e : exn).

Definition control (body : object) (w : world) : outcome * world :=
  match handler body w with
  | (Next responseMessage, w') => (Responded (message responseMessage), w')
  | (Return r, w') => (Responded r, w')
  | (Throw e, w') => (Uncaught e, w')
  end.

(** ** Vocabulary of the statements *)

(** The request finds its two paths, in its body or in the store. *)
Definition paths_found (body : object) (w : world) : bool :=
  ToBoolean (fst (resolved body (stored w))) && ToBoolean (snd (resolved body (stored w))).

(** The store holds both paths. *)
Definition selection_saved (w : world) : bool := negb (missing_paths (stored w)).

(** The answers the two players give to the next status query. *)
Definition next_master (w : world) : json := hd (Scalar null) (master_answers w).
Definition next_slave (w : world) : json := hd (Scalar null) (slave_answers w).

(** The world once both players have been queried. *)
Definition queried (w : world) : world :=
  {| paths_txt := paths_txt w; master_answers := tl (master_answers w);
     slave_answers := tl (slave_answers w); trace := trace w |}.

(** The world after further events. *)
Definition after (w : world) (evs : list event) : world :=
  {| paths_txt := paths_txt w; master_answers := master_answers w;
     slave_answers := slave_answers w; trace := trace w ++ evs |}.

(** [statusX.time || 0]. *)
Definition elapsed (d : json) : value := or_else (field d "time") (JNum zero).

Definition is_seek (e : event) : bool :=
  match e with Send _ (seek _) => true | _ => false end.

Definition is_fullscreen (e : event) : bool :=
  match e with Send _ fullscreen => true | _ => false end.

(** Whatever the computation [m] appends to the trace satisfies [P]. *)
Definition emits {A} (P : event -> bool) (m : M A) : Prop :=
  forall w, exists evs, trace (snd (m w)) = (trace w ++ evs)%list /\ forallb P evs = true.

Definition no_seek (e : event) : bool := negb (is_seek e).

(** The world with [paths.txt] rewritten. *)
Definition written (w : world) (content : string) : world :=
  {| paths_txt := Some (Str.toUTF8 content); master_answers := master_answers w;
     slave_answers := slave_answers w; trace := trace w |}.

Definition no_line_break (s : string) : bool :=
  forallb (fun c => negb ((c =? Str.LF)%char || (c =? Str.CR)%char))
          (list_ascii_of_string s).

(** JavaScript's notion of a finite number. *)
Definition finite_number (v : value) : bool :=
  match v with JNum n => is_finite n | _ => false end.

(** A number whose sign bit, if it has one, is [s]. *)
Definition signed (s : bool) (x : number) : Prop :=
  match x with
  | S754_zero s' | S754_infinity s' | S754_finite s' _ _ => s' = s
  | S754_nan => True
  end.

(** The participant is in the [playing] state, or in the [paused] state as
    [play] reads it ([statusX?.state]). *)
Definition playing (d : json) : bool := strict_eq (field d "state") (JStr "playing").
Definition paused (d : json) : bool := strict_eq (member_opt d "state") (JStr "paused").

(** The time a status document reports, as [sync] reads it. *)
Definition reported (d : json) : number := parseFloat (field d "time").

(** What a fresh start sends before playing. *)
Definition cold_events (p : paths) : list event :=
  [Send Master (in_enqueue (Str.encodeURIComponent (masterFile p)));
   Send Slave (in_enqueue (Str.encodeURIComponent (slaveFile p)));
   Send Master pl_next; Send Slave pl_next;
   Send Master (rate "1.0"); Send Slave (rate "1.0");
   Send Master (seek "0"); Send Slave (seek "0");
   Wait 1000].

(** ** Sample requests and worlds *)

Definition status_at (state : string) (time : number) (fs : bool) : json :=
  Object [("state", JStr state); ("time", JNum time); ("fullscreen", JBool fs)].

Definition status (state : string) (time : Z) (fs : bool) : json :=
  status_at state (of_Z time) fs.

Definition request (command : string) (params : object) : object :=
  ("command", JStr command) :: params.

(** A saved selection and both players reachable, the master at 50 s and
    the slave at 44 s. *)
Definition studio : world :=
  {| paths_txt := Some (paths_record (JStr "/Volumes/DATA/a.mp4") (JStr "/Volumes/DATA/b.mp4"));
     master_answers := [status "playing" 50 true; status "playing" 50 true];
     slave_answers := [status "playing" 44 true; status "playing" 44 true];
     trace := [] |}.

(** The same with the master switched off. *)
Definition master_down : world :=
  {| paths_txt := paths_txt studio; master_answers := [];
     slave_answers := slave_answers studio; trace := [] |}.

(** Both players playing, the master at 100 s and the slave at 100.2 s. *)
Definition close_by : world :=
  {| paths_txt := paths_txt studio;
     master_answers := [status "playing" 100 true];
     slave_answers := [status_at "playing" (of_decimal false 1002 (-1)) true];
     trace := [] |}.

(** The master playing at 12.3 s, the slave at 9.8 s, playing or paused. *)
Definition drifting (slave_state : string) : world :=
  {| paths_txt := paths_txt studio;
     master_answers := [status_at "playing" (of_decimal false 123 (-1)) true];
     slave_answers := [status_at slave_state (of_decimal false 98 (-1)) true];
     trace := [] |}.

(** Nothing saved yet, and nobody answering. *)
Definition blank : world :=
  {| paths_txt := None; master_answers := []; slave_answers := []; trace := [] |}.

(** A file name that starts with the lone surrogate U+D800, and the name
    with U+FFFD in its place. *)
Definition torn : string := Str.bytes [237; 160; 128]%nat ++ ".mp4".
Definition mended : string := Str.replacement ++ ".mp4".

(** ** Helpers of the server that the handler does not call *)

(** [!status || status.state === "stopped" || status.state === "paused"]. *)
Definition should_load (status : json) : bool :=
  negb (truthy status)
  || strict_eq (field status "state") (JStr "stopped")
  || strict_eq (field status "state") (JStr "paused").

Definition forceLoadCorrectFiles (masterFile slaveFile : value) : M unit :=
  statusMaster <- getVLCStatus Master ;;
  statusSlave <- getVLCStatus Slave ;;
  let shouldLoadMaster := should_load statusMaster in
  let shouldLoadSlave := should_load statusSlave in
  when shouldLoadMaster
       (input <- encodeURIComponent (ToString masterFile) ;;
        sendCommand Master (in_play input)) ;;
  when shouldLoadSlave
       (input <- encodeURIComponent (ToString slaveFile) ;;
        sendCommand Slave (in_play input)) ;;
  when (shouldLoadMaster || shouldLoadSlave) (delay 500).

(** [isFullscreen]: the [fullscreen] field of the status, -1 without one. *)
Definition isFullscreen (p : participant) : M value :=
  data <- getVLCStatus p ;;
  ret (if truthy data && negb (is_undefined (field data "fullscreen"))
       then field data "fullscreen" else JNum (of_Z (-1))).

(** ** Further vocabulary *)

(** The world once one player has been queried. *)
Definition master_queried (w : world) : world :=
  {| paths_txt := paths_txt w; master_answers := tl (master_answers w);
     slave_answers := slave_answers w; trace := trace w |}.

Definition slave_queried (w : world) : world :=
  {| paths_txt := paths_txt w; master_answers := master_answers w;
     slave_answers := tl (slave_answers w); trace := trace w |}.

(** The labels of the switch. *)
Definition commands : list string :=
  ["play"; "pause"; "stop"; "seek"; "skip_forward"; "skip_backward"; "wakeUp";
   "fullscreen"; "sync"; "setSpeed"; "resetSpeed"; "savePaths"].

Definition known (v : value) : bool :=
  match v with
  | JStr c => existsb (String.eqb c) commands
  | _ => false
  end.

Definition no_pause (e : event) : bool :=
  match e with Send _ pl_pause => false | _ => true end.

Definition no_stop (e : event) : bool :=
  match e with Send _ pl_stop => false | _ => true end.

(** Characters that [encodeURIComponent] lets through or produces. *)
Definition url_safe (c : ascii) : bool := Str.unreserved c || (c =? "%")%char.

(** A file name sent to a player is made of such characters only. *)
Definition safe_input (e : event) : bool :=
  match e with
  | Send _ (in_enqueue f) | Send _ (in_play f) => forallb url_safe (list_ascii_of_string f)
  | _ => true
  end.

(** The computation leaves [paths.txt] alone. *)
Definition steady {A} (m : M A) : Prop :=
  forall w, paths_txt (snd (m w)) = paths_txt w.

(** The computation never throws. *)
Definition guarded {A} (m : M A) : Prop :=
  forall w, match fst (m w) with Throw _ => False | _ => True end.

(** What [sync] starts its retry loop with. *)
Definition unpolled : polled :=
  {| statusMaster := Scalar undefined; statusSlave := Scalar undefined;
     masterOk := false; slaveOk := false |}.

(** What one attempt of the retry loop finds in a world. *)
Definition attempt (w : world) : polled :=
  {| statusMaster := next_master w; statusSlave := next_slave w;
     masterOk := has_time (next_master w); slaveOk := has_time (next_slave w) |}.

Definition both_ok (r : polled) : bool := masterOk r && slaveOk r.

(** Lines put together with a separator, and the two separators of text
    files. *)
Fixpoint join (sep : string) (ls : list string) : string :=
  match ls with
  | [] => EmptyString
  | [l] => l
  | l :: r => l ++ sep ++ join sep r
  end.

Definition LF_sep : string := String Str.LF EmptyString.
Definition CRLF_sep : string := String Str.CR (String Str.LF EmptyString).

(** The value a list of lines gives to a key: what follows the key on the
    last line that starts with it, the empty string without such a line. *)
Definition last_value (key : string) (ls : list string) : string :=
  match find (fun l => Str.startsWith l key) (rev ls) with
  | Some l => Str.drop (length key) l
  | None => EmptyString
  end.

(** The fullscreen commands of the [fullscreen] case and of [play]. *)
Definition toggles (sm ss : json) : list event :=
  ((if strict_eq (field sm "fullscreen") (JBool true) then [] else [Send Master fullscreen])
   ++ (if strict_eq (field ss "fullscreen") (JBool true) then [] else [Send Slave fullscreen]))%list.


(** Only the slave answers, or only the master: three times each. *)
Definition slave_only : world :=
  {| paths_txt := paths_txt studio; master_answers := [];
     slave_answers := [status "playing" 44 true; status "playing" 44 true;
                       status "playing" 44 true];
     trace := [] |}.

Definition master_only : world :=
  {| paths_txt := paths_txt studio;
     master_answers := [status "playing" 50 true; status "playing" 50 true;
                        status "playing" 50 true];
     slave_answers := []; trace := [] |}.

(** The master stopped at 50 s and gone after that, the slave playing. *)
Definition master_stalls : world :=
  {| paths_txt := paths_txt studio;
     master_answers := [status "stopped" 50 false];
     slave_answers := [status "playing" 44 true];
     trace := [] |}.

(** A store written by hand: Windows line ends, the slave first, a
    comment, and the master given twice. *)
Definition hand_written : list string :=
  ["SLAVE_VIDEO_PATH=b.mp4"; "# selection"; "MASTER_VIDEO_PATH=old.mp4";
   "MASTER_VIDEO_PATH=a.mp4"].

Definition to_master (e : event) : bool :=
  match e with Send Master _ => true | _ => false end.

Definition to_slave (e : event) : bool :=
  match e with Send Slave _ => true | _ => false end.


(** ** Numbers: comparison and sign *)

Lemma SFcompare_antisym (x y : number) :
  SFcompare y x = option_map CompOpp (SFcompare x y).
Proof.
  destruct x as [sx|sx| |sx mx ex], y as [sy|sy| |sy my ey]; simpl;
    try (destruct sx); try (destruct sy); try reflexivity.
  all: rewrite (Z.compare_antisym ex ey); destruct (ex ?= ey); simpl; try reflexivity.
  all: rewrite (Pos.compare_cont_antisym mx my Eq); simpl; try reflexivity.
  all: destruct (Pos.compare_cont Eq mx my); reflexivity.
Qed.

Lemma leb_not_ltb (x y : number) : leb x y = true -> ltb y x = false.
Proof.
  unfold leb, ltb, SFleb, SFltb. rewrite (SFcompare_antisym x y).
  destruct (SFcompare x y) as [[]|]; simpl; congruence.
Qed.

Lemma SFcompare_Eq_finite sx mx ex sy my ey :
  SFcompare (S754_finite sx mx ex) (S754_finite sy my ey) = Some Eq ->
  sx = sy /\ mx = my /\ ex = ey.
Proof.
  simpl. destruct sx, sy; try discriminate.
  all: destruct (ex ?= ey) eqn:E; try discriminate.
  all: apply Z.compare_eq in E; subst.
  all: destruct (Pos.compare_cont Eq mx my) eqn:F; try discriminate.
  all: apply Pos.compare_eq in F; subst; auto.
Qed.

Lemma sub_diag_finite s m e :
  sub (S754_finite s m e) (S754_finite s m e) = S754_zero false.
Proof. unfold sub, SFsub. rewrite Z.sub_diag. reflexivity. Qed.

(** Two times further apart than the threshold are ordered one way or the
    other: neither is NaN and they are not equal. *)
Lemma apart (m s : number) :
  ltb threshold (Num.abs (sub m s)) = true -> ltb m s = true \/ ltb s m = true.
Proof.
  intros H. unfold ltb, SFltb.
  rewrite (SFcompare_antisym m s).
  destruct (SFcompare m s) as [[]|] eqn:E; simpl; auto; exfalso.
  - destruct m as [sm|sm| |sm mm em], s as [ss|ss| |ss ms es]; simpl in E;
      try discriminate; try (destruct sm; discriminate); try (destruct ss; discriminate).
    + destruct sm, ss; discriminate H.
    + destruct sm, ss; try discriminate; discriminate H.
    + apply SFcompare_Eq_finite in E. destruct E as (-> & -> & ->).
      rewrite sub_diag_finite in H. discriminate H.
  - destruct m as [sm|sm| |sm mm em], s as [ss|ss| |ss ms es]; simpl in E;
      try discriminate; discriminate H.
Qed.

Lemma ltb_asym (x y : number) : ltb x y = true -> ltb y x = false.
Proof.
  unfold ltb, SFltb. rewrite (SFcompare_antisym x y).
  destruct (SFcompare x y) as [[]|]; simpl; congruence.
Qed.

Lemma binary_round_aux_signed s m e l : signed s (binary_round_aux prec emax s m e l).
Proof.
  unfold binary_round_aux.
  destruct (shr_fexp prec emax m e l) as [mrs e'].
  destruct (shr_fexp prec emax _ e' loc_Exact) as [mrs' e''].
  destruct (shr_m mrs'); simpl; auto.
  destruct (e'' <=? 971); simpl; auto.
Qed.

Lemma max_zero_signed (x : number) : signed false x -> Num.max zero x = x.
Proof. destruct x as [s|s| |s m e]; simpl; intros H; try subst s; reflexivity. Qed.

Lemma add_ten_signed (e : number) : leb zero e = true -> signed false (add e ten).
Proof.
  destruct e as [s|s| |s m ex]; try discriminate.
  - intros _. reflexivity.
  - destruct s; [discriminate|]. intros _. reflexivity.
  - destruct s; [discriminate|]. intros _.
    unfold add, SFadd, ten, binary_normalize, binary_round. cbn [cond_Zopp Z.add].
    match goal with
    | |- context [shl_align ?a ?b ?c] => destruct (shl_align a b c) as [mz ez]
    end.
    apply binary_round_aux_signed.
Qed.

(** ** Running the monad *)

Arguments Str.NumberToString : simpl never.
Arguments Str.StringToNumber : simpl never.
Arguments Str.parseFloat : simpl never.
Arguments Str.toFixed1 : simpl never.
Arguments Str.encodeURIComponent : simpl never.
Arguments parse_paths : simpl never.

Lemma after_nil w : after w [] = w.
Proof. destruct w; unfold after; simpl. now rewrite app_nil_r. Qed.

Lemma after_after w a b : after (after w a) b = after w (a ++ b).
Proof. unfold after; simpl. now rewrite app_assoc. Qed.

Lemma emit_run e w : emit e w = (Next tt, after w [e]).
Proof. reflexivity. Qed.

Lemma ToBoolean_or_else a b : ToBoolean (or_else a b) = ToBoolean a || ToBoolean b.
Proof. unfold or_else. destruct (ToBoolean a) eqn:E; simpl; auto. Qed.

(** A request that finds its paths reaches the switch. *)
Lemma handler_dispatch body w c :
  get body "command" = JStr c -> String.eqb c "savePaths" = false ->
  paths_found body w = true ->
  handler body w =
  dispatch body (JStr c) (fst (resolved body (stored w))) (snd (resolved body (stored w)))
           (get body "seekValue") w.
Proof.
  intros Hc Hs Hp. unfold handler. rewrite Hc. unfold strict_eq. rewrite Hs. cbn [negb].
  unfold bind, readPaths. unfold paths_found in Hp.
  destruct (resolved body (stored w)) as [m s]. simpl in *.
  apply andb_prop in Hp. destruct Hp as [-> ->]. reflexivity.
Qed.

Lemma selection_saved_found body w : selection_saved w = true -> paths_found body w = true.
Proof.
  unfold selection_saved, missing_paths, paths_found, resolved. cbn [fst snd].
  rewrite !ToBoolean_or_else. intros H.
  apply negb_true_iff, orb_false_elim in H. destruct H as [H1 H2].
  apply negb_false_iff in H1, H2. rewrite H1, H2, !orb_true_r. reflexivity.
Qed.

(** ** SeekAbsolute *)




(** The finite number 0 is refused: [seekValue && ...] takes it for a
    missing value. *)
Lemma seek_zero_is_refused :
  finite_number (JNum zero) = true /\
  control (request "seek" [("seekValue", JNum zero)]) studio =
  (Responded invalid_seek, studio).
Proof. split; reflexivity. Qed.

(** ** SetSpeed *)





(** ** SaveSelection and the path store *)




Lemma split_lines_one (a : string) :
  no_line_break a = true -> Str.split_lines a = [a].
Proof.
  induction a as [|c r IH]; [reflexivity|].
  unfold no_line_break. cbn [list_ascii_of_string forallb].
  intros H. apply andb_prop in H. destruct H as [Hc Hr].
  apply negb_true_iff, orb_false_elim in Hc. destruct Hc as [Hlf Hcr].
  cbn [Str.split_lines]. rewrite Hlf, Hcr. cbn [andb].
  rewrite (IH Hr). reflexivity.
Qed.

Lemma split_lines_app (a b : string) :
  no_line_break a = true ->
  Str.split_lines (a ++ String Str.LF b) = a :: Str.split_lines b.
Proof.
  induction a as [|c r IH].
  - intros _. reflexivity.
  - unfold no_line_break. cbn [list_ascii_of_string forallb].
    intros H. apply andb_prop in H. destruct H as [Hc Hr].
    apply negb_true_iff, orb_false_elim in Hc. destruct Hc as [Hlf Hcr].
    cbn [String.append Str.split_lines]. rewrite Hlf, Hcr. cbn [andb].
    rewrite (IH Hr). reflexivity.
Qed.

Lemma prefix_app (p x : string) : prefix p (p ++ x) = true.
Proof.
  induction p as [|c r IH]; [destruct x; reflexivity|].
  cbn [String.append prefix]. destruct (ascii_dec c c); [exact IH | congruence].
Qed.

Lemma remove_first_app (p x : string) :
  p <> EmptyString -> Str.remove_first p (p ++ x) = x.
Proof.
  intros Hp. destruct p as [|c r]; [congruence|].
  cbn [String.append]. unfold Str.remove_first.
  change (String c (r ++ x)) with (String c r ++ x).
  rewrite prefix_app. clear Hp.
  generalize (String c r). intros p. induction p as [|d q IH]; [reflexivity | exact IH].
Qed.

Lemma read_master_line (acc : paths) (m : string) :
  read_line acc (MASTER_KEY ++ m) = {| masterFile := m; slaveFile := slaveFile acc |}.
Proof.
  unfold read_line, Str.startsWith. rewrite prefix_app.
  rewrite remove_first_app by discriminate. reflexivity.
Qed.

Lemma read_slave_line (acc : paths) (s : string) :
  read_line acc (SLAVE_KEY ++ s) = {| masterFile := masterFile acc; slaveFile := s |}.
Proof.
  unfold read_line, Str.startsWith. rewrite prefix_app.
  rewrite remove_first_app by discriminate. reflexivity.
Qed.

Lemma parse_saved (m s : string) :
  no_line_break m = true -> no_line_break s = true ->
  parse_paths (paths_record (JStr m) (JStr s)) = {| masterFile := m; slaveFile := s |}.
Proof.
  intros Hm Hs. unfold parse_paths, paths_record. cbn [ToString].
  change (MASTER_KEY ++ m ++ String Str.LF (SLAVE_KEY ++ s))
    with ((MASTER_KEY ++ m) ++ String Str.LF (SLAVE_KEY ++ s)).
  rewrite split_lines_app by exact Hm.
  rewrite split_lines_one by exact Hs.
  cbn [fold_left]. rewrite read_master_line, read_slave_line. reflexivity.
Qed.

(** *** Lone surrogates *)

Lemma lone_surrogate_cons (a b : ascii) (t : string) :
  Str.lone_surrogate (String a (String b t)) =
  Str.surrogate a b || Str.lone_surrogate (String b t).
Proof. reflexivity. Qed.

Lemma toUTF8_cons (a b : ascii) (t : string) :
  Str.surrogate a b = false ->
  Str.toUTF8 (String a (String b t)) = String a (Str.toUTF8 (String b t)).
Proof. intros H. change (Str.toUTF8 (String a (String b t)))
         with (if Str.surrogate a b
               then Str.replacement ++ match t with
                                       | EmptyString => EmptyString
                                       | String _ r => Str.toUTF8 r
                                       end
               else String a (Str.toUTF8 (String b t))).
       rewrite H. reflexivity.
Qed.

(** Text without lone surrogate is written as it is. *)
Lemma toUTF8_well_formed (s : string) :
  Str.lone_surrogate s = false -> Str.toUTF8 s = s.
Proof.
  induction s as [|a t IH]; [reflexivity|].
  destruct t as [|b u]; [reflexivity|].
  rewrite lone_surrogate_cons. intros H.
  apply orb_false_elim in H. destruct H as [H1 H2].
  rewrite (toUTF8_cons a b u H1), (IH H2). reflexivity.
Qed.

Lemma lone_surrogate_skip (c : ascii) (t : string) :
  (Str.code c =? 237) = false ->
  Str.lone_surrogate (String c t) = Str.lone_surrogate t.
Proof.
  intros H. destruct t as [|b u]; [reflexivity|].
  rewrite lone_surrogate_cons. unfold Str.surrogate. rewrite H. reflexivity.
Qed.

Lemma lone_surrogate_prefix (k s : string) :
  forallb (fun c => negb (Str.code c =? 237)) (list_ascii_of_string k) = true ->
  Str.lone_surrogate (k ++ s) = Str.lone_surrogate s.
Proof.
  induction k as [|c k IH]; [reflexivity|].
  cbn [list_ascii_of_string forallb]. intros H.
  apply andb_prop in H. destruct H as [Hc Hk].
  apply negb_true_iff in Hc.
  change (String c k ++ s) with (String c (k ++ s)).
  rewrite (lone_surrogate_skip c _ Hc). exact (IH Hk).
Qed.

Lemma lone_surrogate_app (a : string) (c : ascii) (b : string) :
  (160 <=? Str.code c) = false ->
  Str.lone_surrogate (a ++ String c b) =
  Str.lone_surrogate a || Str.lone_surrogate (String c b).
Proof.
  intros Hc. induction a as [|x a IH]; [reflexivity|].
  destruct a as [|y a'].
  - change (String x EmptyString ++ String c b) with (String x (String c b)).
    rewrite lone_surrogate_cons. unfold Str.surrogate at 1. rewrite Hc.
    rewrite andb_false_r. reflexivity.
  - change (String x (String y a') ++ String c b)
      with (String x (String y (a' ++ String c b))).
    rewrite !lone_surrogate_cons.
    change (String y (a' ++ String c b)) with (String y a' ++ String c b).
    rewrite IH. apply orb_assoc.
Qed.

(** The record of two paths without lone surrogate has none. *)
Lemma record_well_formed (m s : string) :
  Str.lone_surrogate m = false -> Str.lone_surrogate s = false ->
  Str.lone_surrogate (paths_record (JStr m) (JStr s)) = false.
Proof.
  intros Hm Hs. unfold paths_record. cbn [ToString].
  rewrite lone_surrogate_prefix by reflexivity.
  rewrite lone_surrogate_app by reflexivity.
  rewrite Hm, lone_surrogate_skip by reflexivity.
  rewrite lone_surrogate_prefix by reflexivity. exact Hs.
Qed.

Lemma save_well_formed (m s : string) :
  Str.lone_surrogate m = false -> Str.lone_surrogate s = false ->
  Str.toUTF8 (paths_record (JStr m) (JStr s)) = paths_record (JStr m) (JStr s).
Proof. intros Hm Hs. apply toUTF8_well_formed, record_well_formed; assumption. Qed.

(** C10.  Reading the store right after saving a pair of strings without
    lone surrogates and without line breaks gives back exactly that pair;
    reading when [paths.txt] does not exist gives two empty strings. *)
Theorem save_then_read (m s : string) (w : world) :
  (Str.lone_surrogate m = false -> Str.lone_surrogate s = false ->
   no_line_break m = true -> no_line_break s = true ->
   (savePaths (JStr m) (JStr s) ;; readPaths) w =
   (Next {| masterFile := m; slaveFile := s |},
    written w (paths_record (JStr m) (JStr s))))
  /\ (paths_txt w = None ->
      readPaths w = (Next {| masterFile := EmptyString; slaveFile := EmptyString |}, w)).
Proof.
  split.
  - intros Wm Ws Hm Hs. unfold bind, savePaths, readPaths, stored, written.
    cbn [paths_txt]. rewrite (save_well_formed m s Wm Ws).
    rewrite (parse_saved m s Hm Hs). reflexivity.
  - intros H. unfold readPaths, stored. rewrite H. reflexivity.
Qed.

Lemma save_then_read_witness :
  (savePaths (JStr "a.mp4") (JStr "b.mp4") ;; readPaths) studio =
  (Next {| masterFile := "a.mp4"; slaveFile := "b.mp4" |},
   written studio (paths_record (JStr "a.mp4") (JStr "b.mp4")))
  /\ readPaths blank = (Next {| masterFile := EmptyString; slaveFile := EmptyString |}, blank).
Proof.
  split.
  - apply (proj1 (save_then_read "a.mp4" "b.mp4" studio)); reflexivity.
  - apply (proj2 (save_then_read "a.mp4" "b.mp4" blank)); reflexivity.
Defined.

(** C10, as stated, fails: a name with a lone surrogate is not empty and
    holds no line break, and it is read back with U+FFFD in the place of
    the surrogate. *)
Lemma save_then_read_lone_surrogate :
  torn <> EmptyString /\ no_line_break torn = true
  /\ no_line_break "b.mp4" = true
  /\ (savePaths (JStr torn) (JStr "b.mp4") ;; readPaths) blank =
     (Next {| masterFile := mended; slaveFile := "b.mp4" |},
      written blank (paths_record (JStr torn) (JStr "b.mp4")))
  /\ mended <> torn.
Proof.
  split; [discriminate|]. split; [reflexivity|]. split; [reflexivity|].
  split; [vm_compute; reflexivity | vm_compute; discriminate].
Qed.

(** ** Status queries and traces *)

Lemma truthy_not_nullish d : truthy d = true -> nullish d = false.
Proof. destruct d as [[]|]; simpl; congruence. Qed.

Lemma has_time_truthy d : has_time d = true -> truthy d = true.
Proof. unfold has_time. intros H. now apply andb_prop in H. Qed.

Lemma member_run d k w : truthy d = true -> member d k w = (Next (field d k), w).
Proof. intros H. unfold member. rewrite (truthy_not_nullish d H). reflexivity. Qed.

Lemma query_both {A} (k : json -> json -> M A) w :
  (sm <- getVLCStatus Master ;; ss <- getVLCStatus Slave ;; k sm ss) w =
  k (next_master w) (next_slave w) (queried w).
Proof. reflexivity. Qed.

Ltac step :=
  repeat (progress (unfold bind, sendCommand, delay, ret, respond, throw, when;
                    cbn [negb]; rewrite ?emit_run, ?after_after; cbv beta iota));
  cbn [app].

Ltac close_trace :=
  cbv beta iota; cbn [snd trace after queried]; rewrite <- ?app_assoc; cbn [app];
  reflexivity.

(** ** Pause *)

(** C2.  A [pause] request whose two status queries succeed seeks the
    master and the slave to the larger of the two elapsed times, then
    pauses exactly the participants that are [playing], the seeks coming
    first; when either query gives nothing, it answers with the
    status-unavailable error and sends nothing. *)
Theorem pause_both (body : object) (w : world) :
  get body "command" = JStr "pause" -> paths_found body w = true ->
  let sm := next_master w in
  let ss := next_slave w in
  (truthy sm = true -> truthy ss = true ->
   let maxTime := Str.NumberToString (Math_max (elapsed sm) (elapsed ss)) in
   control body w =
   (Responded (message ("Both players synced to " ++ maxTime
                        ++ " sec and paused (no toggling).")),
    after (queried w)
          ([Send Master (seek maxTime); Send Slave (seek maxTime)]
             ++ (if playing sm then [Send Master pl_pause] else [])
             ++ (if playing ss then [Send Slave pl_pause] else []))%list))
  /\ (truthy sm = false \/ truthy ss = false ->
      control body w = (Responded status_unavailable, queried w)).
Proof.
  intros Hc Hp sm ss. unfold control.
  rewrite (handler_dispatch body w "pause" Hc eq_refl Hp).
  change (dispatch body (JStr "pause") ?m ?s ?x) with pause.
  unfold pause. rewrite query_both. fold sm ss. split.
  - intros Hm Hs. rewrite Hm, Hs. cbn [negb orb].
    unfold bind at 1. rewrite (member_run sm "state" _ Hm).
    unfold bind at 1. rewrite (member_run ss "state" _ Hs).
    unfold bind at 1. rewrite (member_run sm "time" _ Hm).
    unfold bind at 1. rewrite (member_run ss "time" _ Hs).
    fold (elapsed sm) (elapsed ss) (playing sm) (playing ss).
    destruct (playing sm), (playing ss); step; reflexivity.
  - intros H.
    assert (E : negb (truthy sm) || negb (truthy ss) = true).
    { destruct H as [-> | ->]; [reflexivity | apply orb_true_r]. }
    rewrite E. reflexivity.
Qed.

Lemma pause_both_witness :
  control (request "pause" []) studio =
  (Responded (message "Both players synced to 50 sec and paused (no toggling)."),
   after (queried studio)
         [Send Master (seek "50"); Send Slave (seek "50");
          Send Master pl_pause; Send Slave pl_pause])
  /\ control (request "pause" []) master_down =
     (Responded status_unavailable, queried master_down).
Proof.
  split.
  - apply (proj1 (pause_both (request "pause" []) studio eq_refl eq_refl)); reflexivity.
  - apply (proj2 (pause_both (request "pause" []) master_down eq_refl eq_refl)).
    left. reflexivity.
Defined.

(** ** SkipRelative *)

Lemma max_zero_add_ten e : leb zero e = true -> Num.max zero (add e ten) = add e ten.
Proof. intros H. apply max_zero_signed, add_ten_signed, H. Qed.

(** C8.  A skip request whose two status queries succeed, each elapsed
    time being a number not below 0, seeks each participant to the larger
    of 0 and its own elapsed time moved by ten seconds, forward or
    backward; when either query gives nothing the request fails and no
    seek is sent. *)
Theorem skip_relative (body : object) (w : world) :
  paths_found body w = true ->
  let sm := next_master w in
  let ss := next_slave w in
  (truthy sm = true -> truthy ss = true ->
   forall em es, elapsed sm = JNum em -> elapsed ss = JNum es ->
   leb zero em = true -> leb zero es = true ->
   (get body "command" = JStr "skip_forward" ->
    control body w =
    (Responded (message "Skipped forward 10 seconds."),
     after (queried w)
           [Send Master (seek (Str.NumberToString (Num.max zero (add em ten))));
            Send Slave (seek (Str.NumberToString (Num.max zero (add es ten))))]))
   /\ (get body "command" = JStr "skip_backward" ->
       control body w =
       (Responded (message "Skipped backward 10 seconds."),
        after (queried w)
              [Send Master (seek (Str.NumberToString (Num.max zero (sub em ten))));
               Send Slave (seek (Str.NumberToString (Num.max zero (sub es ten))))])))
  /\ (truthy sm = false \/ truthy ss = false ->
      get body "command" = JStr "skip_forward" \/ get body "command" = JStr "skip_backward" ->
      control body w = (Responded status_unavailable, queried w)).
Proof.
  intros Hp sm ss. split.
  - intros Hm Hs em es Em Es Pm Ps. split; intros Hc; unfold control.
    + rewrite (handler_dispatch body w "skip_forward" Hc eq_refl Hp).
      change (dispatch body (JStr "skip_forward") ?m ?s ?x) with skip_forward.
      unfold skip_forward. rewrite query_both. fold sm ss. rewrite Hm, Hs. cbn [negb orb].
      unfold bind at 1. rewrite (member_run sm "time" _ Hm).
      unfold bind at 1. rewrite (member_run ss "time" _ Hs).
      fold (elapsed sm) (elapsed ss). rewrite Em, Es. cbn [plus ToString ToNumber].
      rewrite (max_zero_add_ten em Pm), (max_zero_add_ten es Ps).
      step. reflexivity.
    + rewrite (handler_dispatch body w "skip_backward" Hc eq_refl Hp).
      change (dispatch body (JStr "skip_backward") ?m ?s ?x) with skip_backward.
      unfold skip_backward. rewrite query_both. fold sm ss. rewrite Hm, Hs. cbn [negb orb].
      unfold bind at 1. rewrite (member_run sm "time" _ Hm).
      unfold bind at 1. rewrite (member_run ss "time" _ Hs).
      fold (elapsed sm) (elapsed ss). rewrite Em, Es.
      step. reflexivity.
  - intros H Hc.
    assert (E : negb (truthy sm) || negb (truthy ss) = true).
    { destruct H as [-> | ->]; [reflexivity | apply orb_true_r]. }
    unfold control. destruct Hc as [Hc | Hc].
    + rewrite (handler_dispatch body w "skip_forward" Hc eq_refl Hp).
      change (dispatch body (JStr "skip_forward") ?m ?s ?x) with skip_forward.
      unfold skip_forward. rewrite query_both. fold sm ss. rewrite E. reflexivity.
    + rewrite (handler_dispatch body w "skip_backward" Hc eq_refl Hp).
      change (dispatch body (JStr "skip_backward") ?m ?s ?x) with skip_backward.
      unfold skip_backward. rewrite query_both. fold sm ss. rewrite E. reflexivity.
Qed.

Lemma skip_relative_witness :
  control (request "skip_forward" []) studio =
  (Responded (message "Skipped forward 10 seconds."),
   after (queried studio) [Send Master (seek "60"); Send Slave (seek "54")])
  /\ control (request "skip_backward" []) studio =
     (Responded (message "Skipped backward 10 seconds."),
      after (queried studio) [Send Master (seek "40"); Send Slave (seek "34")])
  /\ control (request "skip_backward" []) master_down =
     (Responded status_unavailable, queried master_down).
Proof.
  split; [|split].
  - apply (proj1 (proj1 (skip_relative (request "skip_forward" []) studio eq_refl)
                        eq_refl eq_refl (of_Z 50) (of_Z 44) eq_refl eq_refl eq_refl eq_refl));
      reflexivity.
  - apply (proj2 (proj1 (skip_relative (request "skip_backward" []) studio eq_refl)
                        eq_refl eq_refl (of_Z 50) (of_Z 44) eq_refl eq_refl eq_refl eq_refl));
      reflexivity.
  - apply (proj2 (skip_relative (request "skip_backward" []) master_down eq_refl));
      [left | right]; reflexivity.
Defined.

(** ** Play *)

Lemma cold_start_run p w : cold_start p w = (Next tt, after w (cold_events p)).
Proof. unfold cold_start. step. reflexivity. Qed.

(** C3.  With a selection saved, a [play] request that finds neither
    participant [paused] enqueues the selected media on both, advances
    both to the enqueued entry, resets both rates to 1.0, seeks both to 0,
    waits the settle delay and then plays both, in that order; one that
    finds either participant [paused] plays both at once.  Whatever
    follows the play commands and the short delay toggles fullscreen
    only. *)
Theorem play_sequence (body : object) (w : world) :
  get body "command" = JStr "play" -> selection_saved w = true ->
  let sm := next_master w in
  let ss := next_slave w in
  exists tail,
    trace (snd (control body w)) =
    (trace w ++ (if paused sm || paused ss then [] else cold_events (stored w))
       ++ [Send Master pl_play; Send Slave pl_play; Wait 300] ++ tail)%list
    /\ forallb is_fullscreen tail = true.
Proof.
  intros Hc Hs sm ss. unfold control.
  rewrite (handler_dispatch body w "play" Hc eq_refl (selection_saved_found body w Hs)).
  change (dispatch body (JStr "play") ?m ?s ?x) with play.
  unfold play. unfold bind at 1. unfold readPaths at 1.
  unfold selection_saved in Hs. apply negb_true_iff in Hs. rewrite Hs.
  rewrite query_both. fold sm ss. fold (paused sm) (paused ss).
  set (k := paused sm || paused ss).
  unfold bind at 1.
  assert (E : when (negb k) (cold_start (stored w)) (queried w)
              = (Next tt, after (queried w) (if k then [] else cold_events (stored w)))).
  { destruct k; cbn [negb when]; [unfold ret; now rewrite after_nil | apply cold_start_run]. }
  rewrite E. clear E.
  unfold bind at 1. unfold sendCommand at 1. rewrite emit_run, after_after.
  unfold bind at 1. unfold sendCommand at 1. rewrite emit_run, after_after.
  unfold bind at 1. unfold delay at 1. rewrite emit_run, after_after.
  rewrite query_both.
  set (um := next_master _). set (us := next_slave _).
  unfold bind at 1. unfold member at 1.
  destruct (nullish um).
  { exists []. split; [|reflexivity]. unfold throw. close_trace. }
  unfold ret at 1. cbv beta iota.
  unfold bind at 1. unfold member at 1.
  destruct (nullish us).
  { exists []. split; [|reflexivity]. unfold throw. close_trace. }
  unfold ret at 1. cbv beta iota.
  destruct (strict_eq (field um "fullscreen") (JBool true)),
           (strict_eq (field us "fullscreen") (JBool true)); step.
  - exists []. split; [|reflexivity]. close_trace.
  - exists [Send Slave fullscreen]. split; [|reflexivity]. close_trace.
  - exists [Send Master fullscreen]. split; [|reflexivity]. close_trace.
  - exists [Send Master fullscreen; Send Slave fullscreen]. split; [|reflexivity].
    close_trace.
Qed.

Lemma play_sequence_witness :
  exists tail,
    trace (snd (control (request "play" []) studio)) =
    (trace studio ++ cold_events (stored studio)
       ++ [Send Master pl_play; Send Slave pl_play; Wait 300] ++ tail)%list
    /\ forallb is_fullscreen tail = true.
Proof. exact (play_sequence (request "play" []) studio eq_refl eq_refl). Defined.

(** ** Sync *)

Section Emits.
Variable P : event -> bool.

Lemma emits_ret {A} (a : A) : emits P (ret a).
Proof. intros w. exists []. now rewrite app_nil_r. Qed.

Lemma emits_respond {A} r : emits P (@respond A r).
Proof. intros w. exists []. now rewrite app_nil_r. Qed.

Lemma emits_throw {A} e : emits P (@throw A e).
Proof. intros w. exists []. now rewrite app_nil_r. Qed.

Lemma emits_emit e : P e = true -> emits P (emit e).
Proof. intros H w. exists [e]. split; [reflexivity | cbn; now rewrite H]. Qed.

Lemma emits_getVLCStatus p : emits P (getVLCStatus p).
Proof. intros w. exists []. destruct p; cbn; now rewrite app_nil_r. Qed.

Lemma emits_readPaths : emits P readPaths.
Proof. intros w. exists []. cbn. now rewrite app_nil_r. Qed.

Lemma emits_member d k : emits P (member d k).
Proof. unfold member. destruct (nullish d); [apply emits_throw | apply emits_ret]. Qed.

Lemma emits_bind {A B} (m : M A) (f : A -> M B) :
  emits P m -> (forall a, emits P (f a)) -> emits P (bind m f).
Proof.
  intros Hm Hf w. unfold bind. destruct (Hm w) as (e1 & T1 & F1).
  destruct (m w) as [[a|r|e] w1]; cbn [snd] in *.
  - destruct (Hf a w1) as (e2 & T2 & F2). exists (e1 ++ e2)%list.
    rewrite T2, T1, app_assoc, forallb_app, F1, F2. auto.
  - exists e1. auto.
  - exists e1. auto.
Qed.
End Emits.

Lemma emits_reload p f : emits no_seek (reload p f).
Proof.
  unfold reload, sendCommand, delay.
  repeat (apply emits_bind; [|intros ?]); try apply emits_emit; try reflexivity.
  apply emits_getVLCStatus.
Qed.

Lemma emits_poll n last : emits no_seek (poll n last).
Proof.
  revert last. induction n as [|n IH]; intros last; cbn [poll]; [apply emits_ret|].
  apply emits_bind; [apply emits_getVLCStatus | intros sm].
  apply emits_bind; [apply emits_getVLCStatus | intros ss].
  match goal with |- emits _ (if ?b then _ else _) => destruct b end.
  - apply emits_ret.
  - apply emits_bind; [apply emits_emit; reflexivity | intros _; apply IH].
Qed.

Lemma emits_recover p r : emits no_seek (recover p r).
Proof.
  unfold recover.
  destruct (negb (masterOk r) && negb (slaveOk r)); [apply emits_respond|].
  destruct (negb (masterOk r)).
  { apply emits_bind; [apply emits_reload | intros sm].
    destruct (negb (has_time sm)); [apply emits_respond | apply emits_ret]. }
  destruct (negb (slaveOk r)); [|apply emits_ret].
  apply emits_bind; [apply emits_reload | intros ss].
  destruct (negb (has_time ss)); [apply emits_respond | apply emits_ret].
Qed.

Lemma emits_wake p f d : emits no_seek (wake p f d).
Proof.
  unfold wake. apply emits_bind; [apply emits_member | intros st].
  destruct (negb (strict_eq st (JStr "playing"))); [apply emits_reload | apply emits_ret].
Qed.

(** The retries, the recovery load and the reloads never seek. *)
Lemma emits_acquire : emits no_seek acquire.
Proof.
  unfold acquire. apply emits_bind; [apply emits_readPaths | intros p].
  destruct (missing_paths p); [apply emits_respond|].
  apply emits_bind; [apply emits_poll | intros r].
  apply emits_bind; [apply emits_recover | intros st].
  apply emits_bind; [apply emits_wake | intros sm].
  apply emits_bind; [apply emits_wake | intros ss].
  apply emits_ret.
Qed.

Lemma sync_reads st w w1 :
  acquire w = (Next st, w1) ->
  has_time (fst st) = true -> has_time (snd st) = true ->
  sync w = correct (reported (fst st)) (reported (snd st)) w1.
Proof.
  intros Ha Hm Hs. unfold sync, bind. rewrite Ha. unfold member.
  rewrite (truthy_not_nullish _ (has_time_truthy _ Hm)).
  rewrite (truthy_not_nullish _ (has_time_truthy _ Hs)). reflexivity.
Qed.

(** Once both times are there, what is left of a [sync] request is the
    comparison followed by the [setSpeed] case. *)
Lemma sync_run body w st w1 :
  get body "command" = JStr "sync" -> paths_found body w = true ->
  acquire w = (Next st, w1) ->
  has_time (fst st) = true -> has_time (snd st) = true ->
  handler body w =
  (correct (reported (fst st)) (reported (snd st)) ;; setSpeed body) w1.
Proof.
  intros Hc Hp Ha Hm Hs.
  rewrite (handler_dispatch body w "sync" Hc eq_refl Hp).
  change (dispatch body (JStr "sync") ?m ?s ?x) with (sync ;; setSpeed body).
  unfold bind. rewrite (sync_reads st w w1 Ha Hm Hs). reflexivity.
Qed.

Lemma setSpeed_run body w :
  setSpeed body w =
  if valid_speed (get body "speed")
  then (Next ("Speed set to " ++ ToString (get body "speed") ++ "x on both players."),
        after w [Send Master (rate (ToString (get body "speed")));
                 Send Slave (rate (ToString (get body "speed"))); Wait 200])
  else (Return invalid_speed, w).
Proof. unfold setSpeed. destruct (valid_speed _); step; reflexivity. Qed.


(** C1.  In a [sync] request that obtains both statuses with a time, no
    seek is sent while the statuses are obtained; if the two times are no
    more than the threshold apart no seek is sent afterwards either; if
    they are further apart, exactly one seek is sent, to the participant
    whose time is the smaller, for the other's time plus one, and then
    play is sent to the master and to the slave. *)
Theorem sync_correction (body : object) (w : world) (st : json * json) (w1 : world) :
  get body "command" = JStr "sync" -> paths_found body w = true ->
  acquire w = (Next st, w1) ->
  has_time (fst st) = true -> has_time (snd st) = true ->
  let m := reported (fst st) in
  let s := reported (snd st) in
  let drift := Num.abs (sub m s) in
  (exists evs, trace w1 = (trace w ++ evs)%list /\ forallb no_seek evs = true)
  /\ (leb drift threshold = true ->
      exists evs, trace (snd (control body w)) = (trace w1 ++ evs)%list
                  /\ forallb no_seek evs = true)
  /\ (ltb threshold drift = true ->
      let done := Responded (message ("Sync complete. Both players are now playing at ~"
                                      ++ Str.toFixed1 (add (Num.max m s) one) ++ " sec.")) in
      (ltb m s = true /\
       control body w =
       (done, after w1 [Send Master (seek (Str.NumberToString (add s one) ++ " "));
                        Send Master pl_play; Send Slave pl_play]))
      \/ (ltb s m = true /\
          control body w =
          (done, after w1 [Send Slave (seek (Str.NumberToString (add m one)));
                           Send Master pl_play; Send Slave pl_play]))).
Proof.
  intros Hc Hp Ha Hm Hs m s drift. repeat split.
  - destruct (emits_acquire w) as (evs & T & F). rewrite Ha in T. now exists evs.
  - intros Hd. unfold control. rewrite (sync_run body w st w1 Hc Hp Ha Hm Hs).
    fold m s. unfold bind, correct. fold drift. rewrite (leb_not_ltb _ _ Hd). unfold ret.
    rewrite setSpeed_run. destruct (valid_speed _).
    + eexists. split; [reflexivity | reflexivity].
    + exists []. split; [cbn; now rewrite app_nil_r | reflexivity].
  - intros Hd done. unfold control. rewrite (sync_run body w st w1 Hc Hp Ha Hm Hs).
    fold m s. unfold correct. fold drift. rewrite Hd.
    destruct (apart m s Hd) as [L | L].
    + left. split; [exact L|]. rewrite L. step. reflexivity.
    + right. split; [exact L|]. rewrite (ltb_asym _ _ L), L. step. reflexivity.
Qed.


Lemma sync_correction_witness :
  control (request "sync" []) studio =
  (Responded (message "Sync complete. Both players are now playing at ~51.0 sec."),
   after (queried studio) [Send Slave (seek "51"); Send Master pl_play; Send Slave pl_play]).
Proof.
  pose proof (sync_correction (request "sync" []) studio
                (next_master studio, next_slave studio) (queried studio)
                ltac:(vm_compute; reflexivity) ltac:(vm_compute; reflexivity)
                ltac:(vm_compute; reflexivity) ltac:(vm_compute; reflexivity)
                ltac:(vm_compute; reflexivity)) as (_ & _ & H).
  specialize (H ltac:(vm_compute; reflexivity)).
  destruct H as [[L _] | [_ E]].
  - vm_compute in L. discriminate L.
  - vm_compute in E. vm_compute. exact E.
Defined.

(** ** Uncaught exceptions *)

(** C7 fails on the code.  With the master unreachable, a [fullscreen]
    request reads [statusMaster.fullscreen] on [null]: the handler throws
    a TypeError and no response is sent. *)
Theorem fullscreen_unreachable_uncaught :
  control (request "fullscreen" []) master_down =
  (Uncaught TypeError, after (queried master_down) [Wait 300]).
Proof. vm_compute. reflexivity. Qed.

(** The same happens in [play], after the play commands have gone out. *)
Lemma play_unreachable_uncaught :
  fst (control (request "play" []) master_down) = Uncaught TypeError.
Proof. vm_compute. reflexivity. Qed.

(** ** The examples of the specification *)

Example pause_both_playing :
  control (request "pause" []) (drifting "playing") =
  (Responded (message "Both players synced to 12.3 sec and paused (no toggling)."),
   after (queried (drifting "playing"))
         [Send Master (seek "12.3"); Send Slave (seek "12.3");
          Send Master pl_pause; Send Slave pl_pause]).
Proof. vm_compute. reflexivity. Qed.

Example pause_slave_already_paused :
  control (request "pause" []) (drifting "paused") =
  (Responded (message "Both players synced to 12.3 sec and paused (no toggling)."),
   after (queried (drifting "paused"))
         [Send Master (seek "12.3"); Send Slave (seek "12.3"); Send Master pl_pause]).
Proof. vm_compute. reflexivity. Qed.

Example sync_small_drift :
  forallb no_seek (trace (snd (control (request "sync" []) close_by))) = true.
Proof. vm_compute. reflexivity. Qed.

Example save_without_master_path :
  control (request "savePaths" [("masterFile", JStr EmptyString); ("slaveFile", JStr "b.mp4")])
          studio =
  (Responded (error "Missing file paths."), studio).
Proof. vm_compute. reflexivity. Qed.

Example url_of_recovery_load :
  url Master (in_play "a.mp4") =
  "http://192.168.127.177:8080/requests?command=in_play&input=a.mp4".
Proof. vm_compute. reflexivity. Qed.

(** ** Requests that do not reach a case *)

Lemma strict_eq_str_false (v : value) (s : string) :
  v <> JStr s -> strict_eq v (JStr s) = false.
Proof.
  destruct v as [| | b | n | x]; try reflexivity.
  intros H. cbn [strict_eq]. apply String.eqb_neq. congruence.
Qed.

Lemma control_world body w : snd (control body w) = snd (handler body w).
Proof. unfold control. destruct (handler body w) as [[r|r|e] w']; reflexivity. Qed.

(** Whatever the command, a request that finds its paths reaches the
    switch unless it is [savePaths], which reaches it anyway. *)
Lemma handler_reaches_switch body w :
  get body "command" <> JStr "savePaths" -> paths_found body w = true ->
  handler body w =
  dispatch body (get body "command") (fst (resolved body (stored w)))
           (snd (resolved body (stored w))) (get body "seekValue") w.
Proof.
  intros Hc Hp. unfold handler. rewrite (strict_eq_str_false _ _ Hc). cbn [negb].
  unfold bind, readPaths. unfold paths_found in Hp.
  destruct (resolved body (stored w)) as [m s]. simpl in *.
  apply andb_prop in Hp. destruct Hp as [-> ->]. reflexivity.
Qed.

(** X1.  A request other than [savePaths] that finds a path neither in its
    body nor in the store is answered with the no-file-paths error; the
    players are neither queried nor sent anything. *)
Theorem no_paths_no_action (body : object) (w : world) :
  get body "command" <> JStr "savePaths" -> paths_found body w = false ->
  control body w =
  (Responded (error "No file paths found. Please save file paths first."), w).
Proof.
  intros Hc Hp. unfold control, handler. rewrite (strict_eq_str_false _ _ Hc). cbn [negb].
  unfold bind, readPaths. unfold paths_found in Hp.
  destruct (resolved body (stored w)) as [m s]. cbn [fst snd] in Hp.
  apply andb_false_iff in Hp.
  destruct Hp as [-> | ->]; cbn [negb orb]; [reflexivity | rewrite orb_true_r; reflexivity].
Qed.

Lemma no_paths_no_action_witness :
  control (request "play" []) blank =
  (Responded (error "No file paths found. Please save file paths first."), blank).
Proof. apply (no_paths_no_action (request "play" []) blank); [discriminate | reflexivity]. Defined.

(** X2.  A request that finds its paths and whose command is none of the
    twelve labels of the switch, or is not a string, is answered with the
    invalid-command error and nothing else happens. *)
Theorem unknown_command (body : object) (w : world) :
  known (get body "command") = false -> paths_found body w = true ->
  control body w = (Responded (error "Invalid command."), w).
Proof.
  intros Hk Hp. unfold control.
  rewrite handler_reaches_switch;
    [| intros E; rewrite E in Hk; discriminate Hk | exact Hp].
  destruct (get body "command") as [| | b | n | c]; try reflexivity.
  unfold known, commands in Hk. cbn [existsb] in Hk.
  repeat (apply orb_false_elim in Hk; destruct Hk as [? Hk]).
  unfold dispatch.
  repeat match goal with H : String.eqb c _ = false |- _ => rewrite H; clear H end.
  reflexivity.
Qed.

Lemma unknown_command_witness :
  control (request "rewind" []) studio = (Responded (error "Invalid command."), studio)
  /\ control [("command", JNum one)] studio = (Responded (error "Invalid command."), studio).
Proof.
  split.
  - apply (unknown_command (request "rewind" []) studio); reflexivity.
  - apply (unknown_command [("command", JNum one)] studio); reflexivity.
Defined.

(** ** What the requests never do *)

Lemma emits_savePaths P m s : emits P (savePaths m s).
Proof. intros w. exists []. cbn. now rewrite app_nil_r. Qed.

Lemma hex_digits_safe (c : ascii) :
  url_safe (Str.hex_digit (Str.code c / 16)) = true
  /\ url_safe (Str.hex_digit (Str.code c mod 16)) = true.
Proof. destruct c as [[] [] [] [] [] [] [] []]; vm_compute; auto. Qed.

Lemma encode_cons (c : ascii) (r : string) :
  Str.encodeURIComponent (String c r) =
  if Str.unreserved c then String c (Str.encodeURIComponent r)
  else String "%" (String (Str.hex_digit (Str.code c / 16))
                     (String (Str.hex_digit (Str.code c mod 16))
                        (Str.encodeURIComponent r))).
Proof. reflexivity. Qed.

Lemma encode_safe (s : string) :
  forallb url_safe (list_ascii_of_string (Str.encodeURIComponent s)) = true.
Proof.
  induction s as [|c r IH]; [reflexivity|].
  rewrite encode_cons. destruct (Str.unreserved c) eqn:U.
  - assert (S : url_safe c = true) by (unfold url_safe; now rewrite U).
    cbn [list_ascii_of_string forallb]. now rewrite S, IH.
  - cbn [list_ascii_of_string forallb].
    destruct (hex_digits_safe c) as [-> ->]. now rewrite IH.
Qed.

(** What follows [encodeURIComponent] works on an encoded string. *)
Lemma emits_encode {A} P (s : string) (k : string -> M A) :
  emits P (k (Str.encodeURIComponent s)) -> emits P (bind (encodeURIComponent s) k).
Proof.
  intros H w. unfold bind, encodeURIComponent.
  destruct (Str.lone_surrogate s).
  - exists []. cbn. now rewrite app_nil_r.
  - apply H.
Qed.

Section Harmless.
Variable P : event -> bool.
Hypothesis P_wait : forall ms, P (Wait ms) = true.
Hypothesis P_play : forall p, P (Send p pl_play) = true.
Hypothesis P_next : forall p, P (Send p pl_next) = true.
Hypothesis P_seek : forall p v, P (Send p (seek v)) = true.
Hypothesis P_rate : forall p v, P (Send p (rate v)) = true.
Hypothesis P_fullscreen : forall p, P (Send p fullscreen) = true.
Hypothesis P_enqueue : forall p f, P (Send p (in_enqueue (Str.encodeURIComponent f))) = true.
Hypothesis P_load : forall p f, P (Send p (in_play (Str.encodeURIComponent f))) = true.

Ltac emits_step :=
  lazymatch goal with
  | |- emits _ (ret _) => apply emits_ret
  | |- emits _ (respond _) => apply emits_respond
  | |- emits _ (throw _) => apply emits_throw
  | |- emits _ (getVLCStatus _) => apply emits_getVLCStatus
  | |- emits _ readPaths => apply emits_readPaths
  | |- emits _ (member _ _) => apply emits_member
  | |- emits _ (savePaths _ _) => apply emits_savePaths
  | |- emits _ (sendCommand _ _) => apply emits_emit; solve [auto]
  | |- emits _ (delay _) => apply emits_emit; solve [auto]
  | |- emits _ (bind (encodeURIComponent _) _) => apply emits_encode; cbv beta
  | |- emits _ (bind _ _) => apply emits_bind; [|intros ?]
  | |- emits _ (if ?b then _ else _) => destruct b
  | |- emits _ (when ?b _) => destruct b; cbn [when]
  end.

Ltac emits_all := repeat emits_step.

Lemma play_emits : emits P play.
Proof. unfold play, cold_start. emits_all. Qed.

Lemma pause_emits : (forall p, P (Send p pl_pause) = true) -> emits P pause.
Proof. intros H. unfold pause. emits_all. Qed.

Lemma stop_emits : (forall p, P (Send p pl_stop) = true) -> emits P stop.
Proof. intros H. unfold stop. emits_all. Qed.

Lemma seek_emits v : emits P (seek_case v).
Proof. unfold seek_case. emits_all. Qed.

Lemma skip_forward_emits : emits P skip_forward.
Proof. unfold skip_forward. emits_all. Qed.

Lemma skip_backward_emits : emits P skip_backward.
Proof. unfold skip_backward. emits_all. Qed.

Lemma wakeUp_emits m s : emits P (wakeUp m s).
Proof. unfold wakeUp. emits_all. Qed.

Lemma fullscreen_emits : emits P fullscreen_case.
Proof. unfold fullscreen_case. emits_all. Qed.

Lemma reload_emits p f : emits P (reload p f).
Proof. unfold reload. emits_all. Qed.

Lemma poll_emits n last : emits P (poll n last).
Proof.
  revert last. induction n as [|n IH]; intros last; cbn [poll]; [apply emits_ret|].
  apply emits_bind; [apply emits_getVLCStatus | intros sm].
  apply emits_bind; [apply emits_getVLCStatus | intros ss].
  match goal with |- emits _ (if ?b then _ else _) => destruct b end.
  - apply emits_ret.
  - apply emits_bind; [apply emits_emit, P_wait | intros _; apply IH].
Qed.

Lemma recover_emits p r : emits P (recover p r).
Proof.
  unfold recover.
  repeat first [ apply reload_emits | emits_step ].
Qed.

Lemma wake_emits p f d : emits P (wake p f d).
Proof. unfold wake. repeat first [ apply reload_emits | emits_step ]. Qed.

Lemma acquire_emits : emits P acquire.
Proof.
  unfold acquire.
  repeat first [ apply poll_emits | apply recover_emits | apply wake_emits | emits_step ].
Qed.

Lemma sync_emits : emits P sync.
Proof.
  unfold sync, correct.
  apply emits_bind; [apply acquire_emits | intros st]. emits_all.
Qed.

Lemma setSpeed_emits body : emits P (setSpeed body).
Proof. unfold setSpeed. emits_all. Qed.

Lemma resetSpeed_emits : emits P resetSpeed.
Proof. unfold resetSpeed. emits_all. Qed.

Lemma savePaths_emits m s : emits P (savePaths_case m s).
Proof. unfold savePaths_case. emits_all. Qed.

Lemma dispatch_emits body c m s v :
  (c <> "pause" \/ forall p, P (Send p pl_pause) = true) ->
  (c <> "stop" \/ forall p, P (Send p pl_stop) = true) ->
  emits P (dispatch body (JStr c) m s v).
Proof.
  intros Hp Hs. unfold dispatch.
  destruct (String.eqb c "play"); [apply play_emits|].
  destruct (String.eqb c "pause") eqn:E1.
  { apply pause_emits. destruct Hp as [Hp | Hp]; [|exact Hp].
    apply String.eqb_eq in E1. contradiction. }
  destruct (String.eqb c "stop") eqn:E2.
  { apply stop_emits. destruct Hs as [Hs | Hs]; [|exact Hs].
    apply String.eqb_eq in E2. contradiction. }
  destruct (String.eqb c "seek"); [apply seek_emits|].
  destruct (String.eqb c "skip_forward"); [apply skip_forward_emits|].
  destruct (String.eqb c "skip_backward"); [apply skip_backward_emits|].
  destruct (String.eqb c "wakeUp"); [apply wakeUp_emits|].
  destruct (String.eqb c "fullscreen"); [apply fullscreen_emits|].
  destruct (String.eqb c "sync").
  { apply emits_bind; [apply sync_emits | intros _; apply setSpeed_emits]. }
  destruct (String.eqb c "setSpeed"); [apply setSpeed_emits|].
  destruct (String.eqb c "resetSpeed"); [apply resetSpeed_emits|].
  destruct (String.eqb c "savePaths"); [apply savePaths_emits | apply emits_respond].
Qed.

Lemma handler_emits body :
  (get body "command" <> JStr "pause" \/ forall p, P (Send p pl_pause) = true) ->
  (get body "command" <> JStr "stop" \/ forall p, P (Send p pl_stop) = true) ->
  emits P (handler body).
Proof.
  intros Hp Hs. unfold handler.
  assert (D : forall m s v, emits P (dispatch body (get body "command") m s v)).
  { intros m s v. destruct (get body "command") as [| | b | n | c] eqn:E;
      try apply emits_respond.
    apply dispatch_emits.
    - destruct Hp as [Hp | Hp]; [left; congruence | right; exact Hp].
    - destruct Hs as [Hs | Hs]; [left; congruence | right; exact Hs]. }
  destruct (negb (strict_eq (get body "command") (JStr "savePaths"))).
  - apply emits_bind; [apply emits_readPaths | intros p].
    destruct (resolved body p) as [m s].
    destruct (negb (ToBoolean m) || negb (ToBoolean s)); [apply emits_respond | apply D].
  - destruct (requested body) as [m s]. apply D.
Qed.

End Harmless.

(** X3.  Only the [pause] command pauses a player: no other request ever
    sends [pl_pause]. *)
Theorem only_pause_pauses (body : object) (w : world) :
  get body "command" <> JStr "pause" ->
  exists evs, trace (snd (control body w)) = (trace w ++ evs)%list
              /\ forallb no_pause evs = true.
Proof.
  intros Hc. rewrite control_world.
  apply (handler_emits no_pause); try reflexivity; auto.
Qed.

Lemma only_pause_pauses_witness :
  exists evs, trace (snd (control (request "sync" []) studio)) = (trace studio ++ evs)%list
              /\ forallb no_pause evs = true.
Proof. apply (only_pause_pauses (request "sync" []) studio). discriminate. Defined.

(** X4.  Only the [stop] command stops a player: no other request ever
    sends [pl_stop]. *)
Theorem only_stop_stops (body : object) (w : world) :
  get body "command" <> JStr "stop" ->
  exists evs, trace (snd (control body w)) = (trace w ++ evs)%list
              /\ forallb no_stop evs = true.
Proof.
  intros Hc. rewrite control_world.
  apply (handler_emits no_stop); try reflexivity; auto.
Qed.

Lemma only_stop_stops_witness :
  exists evs, trace (snd (control (request "pause" []) studio)) = (trace studio ++ evs)%list
              /\ forallb no_stop evs = true.
Proof. apply (only_stop_stops (request "pause" []) studio). discriminate. Defined.

(** X5.  Whatever the request, every file name sent to a player with
    [in_enqueue] or [in_play] is percent-encoded: it is made of
    alphanumerics, the marks [-_.!~*'()] and [%] only, so that it cannot
    add a parameter to the command. *)
Theorem inputs_are_encoded (body : object) (w : world) :
  exists evs, trace (snd (control body w)) = (trace w ++ evs)%list
              /\ forallb safe_input evs = true.
Proof.
  rewrite control_world.
  apply (handler_emits safe_input); try reflexivity; auto;
    intros p f; apply encode_safe.
Qed.

(** ** What the requests leave alone *)

Lemma steady_ret {A} (a : A) : steady (ret a).
Proof. intros w. reflexivity. Qed.

Lemma steady_respond {A} r : steady (@respond A r).
Proof. intros w. reflexivity. Qed.

Lemma steady_throw {A} e : steady (@throw A e).
Proof. intros w. reflexivity. Qed.

Lemma steady_emit e : steady (emit e).
Proof. intros w. reflexivity. Qed.

Lemma steady_getVLCStatus p : steady (getVLCStatus p).
Proof. intros w. destruct p; reflexivity. Qed.

Lemma steady_readPaths : steady readPaths.
Proof. intros w. reflexivity. Qed.

Lemma steady_member d k : steady (member d k).
Proof. unfold member. destruct (nullish d); [apply steady_throw | apply steady_ret]. Qed.

Lemma steady_encode s : steady (encodeURIComponent s).
Proof. intros w. unfold encodeURIComponent. now destruct (Str.lone_surrogate s). Qed.

Lemma steady_bind {A B} (m : M A) (f : A -> M B) :
  steady m -> (forall a, steady (f a)) -> steady (bind m f).
Proof.
  intros Hm Hf w. unfold bind. specialize (Hm w).
  destruct (m w) as [[a|r|e] w1]; cbn [snd] in *; try exact Hm.
  now rewrite (Hf a w1).
Qed.

Ltac steady_step :=
  lazymatch goal with
  | |- steady (ret _) => apply steady_ret
  | |- steady (respond _) => apply steady_respond
  | |- steady (throw _) => apply steady_throw
  | |- steady (getVLCStatus _) => apply steady_getVLCStatus
  | |- steady readPaths => apply steady_readPaths
  | |- steady (member _ _) => apply steady_member
  | |- steady (sendCommand _ _) => apply steady_emit
  | |- steady (delay _) => apply steady_emit
  | |- steady (encodeURIComponent _) => apply steady_encode
  | |- steady (bind _ _) => apply steady_bind; [|intros ?]
  | |- steady (if ?b then _ else _) => destruct b
  | |- steady (when ?b _) => destruct b; cbn [when]
  end.

Ltac steady_all := repeat steady_step.

Lemma steady_poll n last : steady (poll n last).
Proof.
  revert last. induction n as [|n IH]; intros last; cbn [poll]; [apply steady_ret|].
  apply steady_bind; [apply steady_getVLCStatus | intros sm].
  apply steady_bind; [apply steady_getVLCStatus | intros ss].
  match goal with |- steady (if ?b then _ else _) => destruct b end.
  - apply steady_ret.
  - apply steady_bind; [apply steady_emit | intros _; apply IH].
Qed.

Lemma steady_acquire : steady acquire.
Proof.
  unfold acquire, recover, wake, reload.
  repeat first [ apply steady_poll | steady_step ].
Qed.

Lemma steady_sync : steady sync.
Proof.
  unfold sync, correct.
  apply steady_bind; [apply steady_acquire | intros st]. steady_all.
Qed.

Lemma steady_dispatch body c m s v :
  c <> "savePaths" -> steady (dispatch body (JStr c) m s v).
Proof.
  intros Hc. apply String.eqb_neq in Hc. unfold dispatch. rewrite Hc.
  destruct (String.eqb c "play"); [unfold play, cold_start; steady_all|].
  destruct (String.eqb c "pause"); [unfold pause; steady_all|].
  destruct (String.eqb c "stop"); [unfold stop; steady_all|].
  destruct (String.eqb c "seek"); [unfold seek_case; steady_all|].
  destruct (String.eqb c "skip_forward"); [unfold skip_forward; steady_all|].
  destruct (String.eqb c "skip_backward"); [unfold skip_backward; steady_all|].
  destruct (String.eqb c "wakeUp"); [unfold wakeUp; steady_all|].
  destruct (String.eqb c "fullscreen"); [unfold fullscreen_case; steady_all|].
  destruct (String.eqb c "sync").
  { apply steady_bind; [apply steady_sync | intros _; unfold setSpeed; steady_all]. }
  destruct (String.eqb c "setSpeed"); [unfold setSpeed; steady_all|].
  destruct (String.eqb c "resetSpeed"); [unfold resetSpeed; steady_all|].
  apply steady_respond.
Qed.


(** X6.  Only [savePaths] writes [paths.txt]: after any other request the
    file, present or not, is what it was. *)
Theorem store_untouched (body : object) (w : world) :
  get body "command" <> JStr "savePaths" ->
  paths_txt (snd (control body w)) = paths_txt w.
Proof.
  intros Hc. rewrite control_world. revert w. change (steady (handler body)).
  unfold handler. rewrite (strict_eq_str_false _ _ Hc). cbn [negb].
  apply steady_bind; [apply steady_readPaths | intros p].
  destruct (resolved body p) as [m s].
  destruct (negb (ToBoolean m) || negb (ToBoolean s)); [apply steady_respond|].
  destruct (get body "command") as [| | b | n | c] eqn:E; try apply steady_respond.
  apply steady_dispatch. congruence.
Qed.

Lemma store_untouched_witness :
  paths_txt (snd (control (request "sync" []) studio)) = paths_txt studio.
Proof. apply (store_untouched (request "sync" []) studio). discriminate. Defined.

(** ** Requests that always get an answer *)

Lemma guarded_ret {A} (a : A) : guarded (ret a).
Proof. intros w. exact I. Qed.

Lemma guarded_respond {A} r : guarded (@respond A r).
Proof. intros w. exact I. Qed.

Lemma guarded_emit e : guarded (emit e).
Proof. intros w. exact I. Qed.

Lemma guarded_getVLCStatus p : guarded (getVLCStatus p).
Proof. intros w. destruct p; exact I. Qed.

Lemma guarded_readPaths : guarded readPaths.
Proof. intros w. exact I. Qed.

Lemma guarded_savePaths m s : guarded (savePaths m s).
Proof. intros w. exact I. Qed.

Lemma guarded_member d k : nullish d = false -> guarded (member d k).
Proof. intros H w. unfold member. rewrite H. exact I. Qed.

Lemma guarded_bind {A B} (m : M A) (f : A -> M B) :
  guarded m -> (forall a, guarded (f a)) -> guarded (bind m f).
Proof.
  intros Hm Hf w. unfold bind. specialize (Hm w).
  destruct (m w) as [[a|r|e] w1]; cbn [fst] in *; try exact Hm.
  apply Hf.
Qed.

Lemma both_truthy (a b : json) :
  negb (truthy a) || negb (truthy b) = false -> nullish a = false /\ nullish b = false.
Proof.
  intros H. apply orb_false_elim in H. destruct H as [Ha Hb].
  apply negb_false_iff in Ha, Hb. split; now apply truthy_not_nullish.
Qed.

Ltac guarded_step :=
  lazymatch goal with
  | |- guarded (ret _) => apply guarded_ret
  | |- guarded (respond _) => apply guarded_respond
  | |- guarded (getVLCStatus _) => apply guarded_getVLCStatus
  | |- guarded readPaths => apply guarded_readPaths
  | |- guarded (savePaths _ _) => apply guarded_savePaths
  | |- guarded (member _ _) => apply guarded_member; assumption
  | |- guarded (sendCommand _ _) => apply guarded_emit
  | |- guarded (delay _) => apply guarded_emit
  | |- guarded (bind _ _) => apply guarded_bind; [|intros ?]
  | |- guarded (if negb (truthy ?a) || negb (truthy ?b) then _ else _) =>
      let E := fresh "E" in
      destruct (negb (truthy a) || negb (truthy b)) eqn:E;
      [| destruct (both_truthy a b E) ]
  | |- guarded (if ?b then _ else _) => destruct b
  | |- guarded (when ?b _) => destruct b; cbn [when]
  end.

Ltac guarded_all := repeat guarded_step.

Lemma guarded_dispatch body c m s v :
  c <> "play" -> c <> "wakeUp" -> c <> "fullscreen" -> c <> "sync" ->
  guarded (dispatch body (JStr c) m s v).
Proof.
  intros H1 H2 H3 H4.
  apply String.eqb_neq in H1, H2, H3, H4. unfold dispatch. rewrite H1, H2, H3, H4.
  destruct (String.eqb c "pause"); [unfold pause; guarded_all|].
  destruct (String.eqb c "stop"); [unfold stop; guarded_all|].
  destruct (String.eqb c "seek"); [unfold seek_case; guarded_all|].
  destruct (String.eqb c "skip_forward"); [unfold skip_forward; guarded_all|].
  destruct (String.eqb c "skip_backward"); [unfold skip_backward; guarded_all|].
  destruct (String.eqb c "setSpeed"); [unfold setSpeed; guarded_all|].
  destruct (String.eqb c "resetSpeed"); [unfold resetSpeed; guarded_all|].
  destruct (String.eqb c "savePaths"); [unfold savePaths_case; guarded_all|].
  apply guarded_respond.
Qed.

(** X7.  Every request whose command is not [play], [wakeUp], [fullscreen]
    or [sync] gets a response, whatever the players answer or fail to
    answer: the handler does not throw. *)
Theorem always_answered (body : object) (w : world) :
  get body "command" <> JStr "play" -> get body "command" <> JStr "wakeUp" ->
  get body "command" <> JStr "fullscreen" -> get body "command" <> JStr "sync" ->
  exists r, fst (control body w) = Responded r.
Proof.
  intros H1 H2 H3 H4.
  assert (G : guarded (handler body)).
  { unfold handler.
    assert (D : forall m s v, guarded (dispatch body (get body "command") m s v)).
    { intros m s v. destruct (get body "command") as [| | b | n | c] eqn:E;
        try apply guarded_respond.
      apply guarded_dispatch; congruence. }
    destruct (negb (strict_eq (get body "command") (JStr "savePaths"))).
    - apply guarded_bind; [apply guarded_readPaths | intros p].
      destruct (resolved body p) as [m s].
      destruct (negb (ToBoolean m) || negb (ToBoolean s)); [apply guarded_respond | apply D].
    - destruct (requested body) as [m s]. apply D. }
  specialize (G w). unfold control.
  destruct (handler body w) as [[a|r|e] w1]; cbn [fst] in *;
    [eexists; reflexivity | eexists; reflexivity | contradiction].
Qed.

Lemma always_answered_witness :
  exists r, fst (control (request "pause" []) master_down) = Responded r.
Proof. apply (always_answered (request "pause" []) master_down); discriminate. Defined.

(** ** The retry loop and the recovery of [sync] *)

Ltac same_world :=
  unfold after, queried, master_queried, slave_queried;
  cbn [paths_txt master_answers slave_answers trace repeat app];
  rewrite <- ?app_assoc; reflexivity.

Lemma query_master w : getVLCStatus Master w = (Next (next_master w), master_queried w).
Proof. reflexivity. Qed.

Lemma query_slave w : getVLCStatus Slave w = (Next (next_slave w), slave_queried w).
Proof. reflexivity. Qed.

Lemma poll_attempt k last w :
  poll (S k) last w =
  if both_ok (attempt w) then (Next (attempt w), queried w)
  else poll k (attempt w) (after (queried w) [Wait 200]).
Proof.
  cbn [poll]. rewrite query_both. unfold both_ok, attempt. cbn [masterOk slaveOk].
  destruct (has_time (next_master w) && has_time (next_slave w)); reflexivity.
Qed.

(** X8.  The retry loop of [sync] makes one, two or three attempts, each
    querying both players; every attempt before the last one failed, and
    the loop stops at the first attempt in which both statuses carry a
    time.  It waits 200 ms after every attempt that failed, the third
    included, sends no command, and reports the statuses of its last
    attempt. *)
Theorem poll_attempts (w : world) :
  exists k, (1 <= k <= 3)%nat
    /\ (forall j, (j < k - 1)%nat -> both_ok (attempt (Nat.iter j queried w)) = false)
    /\ let r := attempt (Nat.iter (k - 1) queried w) in
       poll 3 unpolled w =
       (Next r, after (Nat.iter k queried w)
                      (repeat (Wait 200) (if both_ok r then k - 1 else 3)))
       /\ (both_ok r = false -> k = 3%nat).
Proof.
  rewrite poll_attempt. destruct (both_ok (attempt w)) eqn:E1.
  { exists 1%nat. split; [lia|]. split; [intros j Hj; lia|].
    cbv zeta. unfold Nat.iter. cbn [nat_rect Nat.sub]. rewrite E1.
    cbn [repeat]. rewrite after_nil. split; [reflexivity | discriminate]. }
  rewrite poll_attempt.
  change (attempt (after (queried w) [Wait 200])) with (attempt (queried w)).
  destruct (both_ok (attempt (queried w))) eqn:E2.
  { exists 2%nat. split; [lia|]. split.
    { intros [|j] Hj; [exact E1 | lia]. }
    cbv zeta. unfold Nat.iter. cbn [nat_rect Nat.sub]. rewrite E2.
    split; [same_world | discriminate]. }
  rewrite poll_attempt.
  change (attempt (after (queried (after (queried w) [Wait 200])) [Wait 200]))
    with (attempt (queried (queried w))).
  exists 3%nat. split; [lia|]. split.
  { intros [|[|j]] Hj; [exact E1 | exact E2 | lia]. }
  cbv zeta. unfold Nat.iter. cbn [nat_rect Nat.sub].
  destruct (both_ok (attempt (queried (queried w)))) eqn:E3.
  - split; [same_world | discriminate].
  - split; [same_world | reflexivity].
Qed.

Lemma poll_three_misses (w : world) :
  both_ok (attempt w) = false -> both_ok (attempt (queried w)) = false ->
  both_ok (attempt (queried (queried w))) = false ->
  poll 3 unpolled w =
  (Next (attempt (queried (queried w))),
   after (queried (queried (queried w))) [Wait 200; Wait 200; Wait 200]).
Proof.
  intros E1 E2 E3. rewrite poll_attempt, E1, poll_attempt.
  change (attempt (after (queried w) [Wait 200])) with (attempt (queried w)).
  rewrite E2, poll_attempt.
  change (attempt (after (queried (after (queried w) [Wait 200])) [Wait 200]))
    with (attempt (queried (queried w))).
  rewrite E3. same_world.
Qed.

Lemma sync_starts body w :
  get body "command" = JStr "sync" -> selection_saved w = true ->
  handler body w =
  ((r <- poll 3 unpolled ;;
    st <- recover (stored w) r ;;
    sm <- wake Master (masterFile (stored w)) (fst st) ;;
    ss <- wake Slave (slaveFile (stored w)) (snd st) ;;
    tm <- member sm "time" ;;
    ts <- member ss "time" ;;
    correct (parseFloat tm) (parseFloat ts)) ;; setSpeed body) w.
Proof.
  intros Hc Hs.
  rewrite (handler_dispatch body w "sync" Hc eq_refl (selection_saved_found body w Hs)).
  change (dispatch body (JStr "sync") ?m ?s ?x) with (sync ;; setSpeed body).
  unfold selection_saved in Hs. apply negb_true_iff in Hs.
  unfold sync, acquire. unfold bind at 1 2 3. unfold readPaths at 1. rewrite Hs.
  unfold bind. fold unpolled.
  destruct (poll 3 unpolled w) as [[r|r|e] w1]; try reflexivity.
  destruct (recover (stored w) r w1) as [[st|r'|e] w2]; try reflexivity.
  destruct (wake Master (masterFile (stored w)) (fst st) w2) as [[sm|r'|e] w3];
    try reflexivity.
  destruct (wake Slave (slaveFile (stored w)) (snd st) w3) as [[ss|r'|e] w4];
    reflexivity.
Qed.

(** X9.  A [sync] request with a saved selection that, three attempts in
    a row, fails to get a time from both players, and at the third gets
    one from neither, is answered with the both-unreachable error after
    three waits of 200 ms; no command is sent. *)
Theorem sync_both_unreachable (body : object) (w : world) :
  get body "command" = JStr "sync" -> selection_saved w = true ->
  let w1 := queried w in
  let w2 := queried w1 in
  both_ok (attempt w) = false -> both_ok (attempt w1) = false ->
  has_time (next_master w2) = false -> has_time (next_slave w2) = false ->
  control body w =
  (Responded (error "Both VLC systems are unreachable."),
   after (queried w2) [Wait 200; Wait 200; Wait 200]).
Proof.
  intros Hc Hs w1 w2 E1 E2 Em Es. unfold control.
  rewrite (sync_starts body w Hc Hs). unfold bind at 1 2.
  rewrite (poll_three_misses w E1 E2)
    by (unfold both_ok, attempt; cbn [masterOk slaveOk]; fold w1 w2; now rewrite Em).
  unfold bind at 1. unfold recover, attempt. cbn [masterOk slaveOk].
  fold w1 w2. rewrite Em, Es. reflexivity.
Qed.

Lemma sync_both_unreachable_witness :
  control (request "sync" []) (written blank (paths_record (JStr "a.mp4") (JStr "b.mp4"))) =
  (Responded (error "Both VLC systems are unreachable."),
   after (written blank (paths_record (JStr "a.mp4") (JStr "b.mp4")))
         [Wait 200; Wait 200; Wait 200]).
Proof.
  apply (sync_both_unreachable (request "sync" [])
           (written blank (paths_record (JStr "a.mp4") (JStr "b.mp4"))));
    vm_compute; reflexivity.
Defined.

(** X10.  When the retry loop of a [sync] request ends with a time from
    one player only, the other player is sent its file with [in_play],
    350 ms are waited and it is queried once more; if it still gives no
    time, the request fails with the error that names it and the player
    that answered is sent nothing. *)
Theorem sync_recovery_fails (body : object) (w : world) :
  get body "command" = JStr "sync" -> selection_saved w = true ->
  let w1 := queried w in
  let w2 := queried w1 in
  let w3 := queried w2 in
  both_ok (attempt w) = false -> both_ok (attempt w1) = false ->
  (has_time (next_master w2) = false -> has_time (next_slave w2) = true ->
   has_time (next_master w3) = false ->
   control body w =
   (Responded (error "Master VLC is unreachable or failed to reload."),
    after (master_queried w3)
          [Wait 200; Wait 200; Wait 200;
           Send Master (in_play (Str.encodeURIComponent (masterFile (stored w))));
           Wait 350]))
  /\ (has_time (next_master w2) = true -> has_time (next_slave w2) = false ->
      has_time (next_slave w3) = false ->
      control body w =
      (Responded (error "Slave VLC is unreachable or failed to reload."),
       after (slave_queried w3)
             [Wait 200; Wait 200; Wait 200;
              Send Slave (in_play (Str.encodeURIComponent (slaveFile (stored w))));
              Wait 350])).
Proof.
  intros Hc Hs w1 w2 w3 E1 E2. split; intros Em Es Er; unfold control;
    rewrite (sync_starts body w Hc Hs); unfold bind at 1 2;
    rewrite (poll_three_misses w E1 E2)
      by (unfold both_ok, attempt; cbn [masterOk slaveOk]; fold w1 w2;
          rewrite Em, Es; reflexivity);
    unfold bind at 1; unfold recover, attempt; cbn [masterOk slaveOk statusMaster statusSlave];
    fold w1 w2; rewrite Em, Es; cbn [negb andb];
    unfold reload; step.
  - rewrite query_master. cbv beta iota.
    change (next_master (after (queried w2) _)) with (next_master w3).
    rewrite Er. reflexivity.
  - rewrite query_slave. cbv beta iota.
    change (next_slave (after (queried w2) _)) with (next_slave w3).
    rewrite Er. reflexivity.
Qed.

Lemma sync_recovery_fails_witness :
  control (request "sync" []) slave_only =
  (Responded (error "Master VLC is unreachable or failed to reload."),
   after (master_queried (queried (queried (queried slave_only))))
         [Wait 200; Wait 200; Wait 200;
          Send Master (in_play "%2FVolumes%2FDATA%2Fa.mp4"); Wait 350])
  /\ control (request "sync" []) master_only =
     (Responded (error "Slave VLC is unreachable or failed to reload."),
      after (slave_queried (queried (queried (queried master_only))))
            [Wait 200; Wait 200; Wait 200;
             Send Slave (in_play "%2FVolumes%2FDATA%2Fb.mp4"); Wait 350]).
Proof.
  split.
  - apply (proj1 (sync_recovery_fails (request "sync" []) slave_only
                    ltac:(vm_compute; reflexivity) ltac:(vm_compute; reflexivity)
                    ltac:(vm_compute; reflexivity) ltac:(vm_compute; reflexivity)));
      vm_compute; reflexivity.
  - apply (proj2 (sync_recovery_fails (request "sync" []) master_only
                    ltac:(vm_compute; reflexivity) ltac:(vm_compute; reflexivity)
                    ltac:(vm_compute; reflexivity) ltac:(vm_compute; reflexivity)));
      vm_compute; reflexivity.
Defined.

(** X11.  When both players answer the first query of a [sync] request
    with a time and in the [playing] state, the statuses are obtained with
    that one query each: nothing is sent and nothing is waited for. *)
Theorem sync_fast_path (w : world) :
  selection_saved w = true ->
  has_time (next_master w) = true -> has_time (next_slave w) = true ->
  playing (next_master w) = true -> playing (next_slave w) = true ->
  acquire w = (Next (next_master w, next_slave w), queried w).
Proof.
  intros Hs Hm Hl Pm Pl. unfold selection_saved in Hs. apply negb_true_iff in Hs.
  unfold acquire. unfold bind at 1. unfold readPaths at 1. rewrite Hs.
  unfold bind at 1. fold unpolled. rewrite poll_attempt.
  unfold both_ok, attempt. cbn [masterOk slaveOk]. rewrite Hm, Hl. cbn [andb].
  unfold bind at 1. unfold recover. cbn [masterOk slaveOk statusMaster statusSlave negb andb].
  unfold ret at 1. cbv beta iota. cbn [fst snd].
  unfold wake. unfold bind at 1 2.
  rewrite (member_run _ "state" _ (has_time_truthy _ Hm)).
  fold (playing (next_master w)). rewrite Pm. cbn [negb]. unfold ret at 1.
  unfold bind at 1 2.
  rewrite (member_run _ "state" _ (has_time_truthy _ Hl)).
  fold (playing (next_slave w)). rewrite Pl. reflexivity.
Qed.

Lemma sync_fast_path_witness :
  acquire studio = (Next (next_master studio, next_slave studio), queried studio).
Proof. apply (sync_fast_path studio); vm_compute; reflexivity. Defined.

(** X12.  A [sync] request finds the master with a time but not playing,
    the slave playing: the master is sent its file again and queried after
    350 ms.  If that query fails, the handler reads the time of [null]:
    it throws a TypeError and the request gets no response. *)
Theorem sync_reload_unreachable (body : object) (w : world) :
  get body "command" = JStr "sync" -> selection_saved w = true ->
  has_time (next_master w) = true -> has_time (next_slave w) = true ->
  playing (next_master w) = false -> playing (next_slave w) = true ->
  nullish (next_master (queried w)) = true ->
  control body w =
  (Uncaught TypeError,
   after (master_queried (queried w))
         [Send Master (in_play (Str.encodeURIComponent (masterFile (stored w))));
          Wait 350]).
Proof.
  intros Hc Hs Hm Hl Pm Pl Hn. unfold control.
  rewrite (sync_starts body w Hc Hs). unfold bind at 1 2.
  rewrite poll_attempt. unfold both_ok, attempt. cbn [masterOk slaveOk].
  rewrite Hm, Hl. cbn [andb].
  unfold bind at 1. unfold recover. cbn [masterOk slaveOk statusMaster statusSlave negb andb].
  unfold ret at 1. cbv beta iota. cbn [fst snd].
  unfold wake. unfold bind at 1 2.
  rewrite (member_run _ "state" _ (has_time_truthy _ Hm)).
  fold (playing (next_master w)). rewrite Pm. cbn [negb].
  unfold reload. step. rewrite query_master. cbv beta iota.
  change (next_master (after (queried w) _)) with (next_master (queried w)).
  rewrite (member_run _ "state" _ (has_time_truthy _ Hl)).
  fold (playing (next_slave w)). rewrite Pl. cbn [negb]. cbv beta iota.
  unfold member. rewrite Hn. reflexivity.
Qed.

Lemma sync_reload_unreachable_witness :
  control (request "sync" []) master_stalls =
  (Uncaught TypeError,
   after (master_queried (queried master_stalls))
         [Send Master (in_play "%2FVolumes%2FDATA%2Fa.mp4"); Wait 350]).
Proof.
  apply (sync_reload_unreachable (request "sync" []) master_stalls);
    vm_compute; reflexivity.
Defined.

(** ** Fullscreen, play and wakeUp *)

(** X13.  A [fullscreen] request waits 300 ms and queries both players.
    If neither status is [null], it toggles fullscreen on exactly the
    players whose [fullscreen] field is not [true] and answers with a
    message; if one is [null] it throws a TypeError after the wait and
    sends nothing. *)
Theorem fullscreen_toggles (body : object) (w : world) :
  get body "command" = JStr "fullscreen" -> paths_found body w = true ->
  let sm := next_master w in
  let ss := next_slave w in
  (nullish sm = false -> nullish ss = false ->
   control body w =
   (Responded (message ("Both players playing. "
                        ++ fullscreen_report (strict_eq (field sm "fullscreen") (JBool true))
                                             (strict_eq (field ss "fullscreen") (JBool true)))),
    after (queried w) (Wait 300 :: toggles sm ss)))
  /\ (nullish sm = true \/ nullish ss = true ->
      control body w = (Uncaught TypeError, after (queried w) [Wait 300])).
Proof.
  intros Hc Hp sm ss.
  assert (E : handler body w =
              (fm <- member sm "fullscreen" ;;
               fs <- member ss "fullscreen" ;;
               when (negb (strict_eq fm (JBool true))) (sendCommand Master fullscreen) ;;
               when (negb (strict_eq fs (JBool true))) (sendCommand Slave fullscreen) ;;
               ret ("Both players playing. "
                    ++ fullscreen_report (strict_eq fm (JBool true))
                                         (strict_eq fs (JBool true))))
                (after (queried w) [Wait 300])).
  { rewrite (handler_dispatch body w "fullscreen" Hc eq_refl Hp). reflexivity. }
  unfold control. rewrite E. clear E. clearbody sm ss. unfold member, toggles. split.
  - intros -> ->. step.
    destruct (strict_eq (field sm "fullscreen") (JBool true)),
             (strict_eq (field ss "fullscreen") (JBool true)); step; reflexivity.
  - intros [-> | ->]; [reflexivity|]. destruct (nullish sm); reflexivity.
Qed.

Lemma fullscreen_toggles_witness :
  control (request "fullscreen" []) master_stalls =
  (Responded (message "Both players playing. Fullscreen: Master - now ON, Slave - already ON."),
   after (queried master_stalls) [Wait 300; Send Master fullscreen])
  /\ control (request "fullscreen" []) slave_only =
     (Uncaught TypeError, after (queried slave_only) [Wait 300]).
Proof.
  split.
  - apply (proj1 (fullscreen_toggles (request "fullscreen" []) master_stalls
                    eq_refl ltac:(vm_compute; reflexivity))); reflexivity.
  - apply (proj2 (fullscreen_toggles (request "fullscreen" []) slave_only
                    eq_refl ltac:(vm_compute; reflexivity))). left. reflexivity.
Defined.

(** X14.  [play] and [sync] read the selection from the store alone: when
    the store lacks a path, paths given in the request let it through the
    first check and it then fails with the file-paths-not-found error of
    the case, before any player is queried. *)
Theorem play_needs_saved_selection (body : object) (w : world) :
  get body "command" = JStr "play" \/ get body "command" = JStr "sync" ->
  paths_found body w = true -> selection_saved w = false ->
  control body w = (Responded (error "File paths not found. Save them first."), w).
Proof.
  intros Hc Hp Hs. unfold selection_saved in Hs. apply negb_false_iff in Hs.
  unfold control. destruct Hc as [Hc | Hc].
  - rewrite (handler_dispatch body w "play" Hc eq_refl Hp).
    change (dispatch body (JStr "play") ?m ?s ?x) with play.
    unfold play, bind, readPaths. rewrite Hs. reflexivity.
  - rewrite (handler_dispatch body w "sync" Hc eq_refl Hp).
    change (dispatch body (JStr "sync") ?m ?s ?x) with (sync ;; setSpeed body).
    unfold sync, acquire, bind, readPaths. rewrite Hs. reflexivity.
Qed.

Lemma play_needs_saved_selection_witness :
  control (request "play" [("masterFile", JStr "a.mp4")]) blank =
  (Responded (error "File paths not found. Save them first."), blank).
Proof.
  apply (play_needs_saved_selection (request "play" [("masterFile", JStr "a.mp4")]) blank);
    [left|..]; reflexivity.
Defined.

(** X15.  With a selection saved, the paths a [play] request carries in
    its body change nothing: two [play] requests are handled alike, and so
    are two [sync] requests with the same [speed]. *)
Theorem play_ignores_request_paths (b1 b2 : object) (w : world) :
  selection_saved w = true ->
  (get b1 "command" = JStr "play" -> get b2 "command" = JStr "play" ->
   control b1 w = control b2 w)
  /\ (get b1 "command" = JStr "sync" -> get b2 "command" = JStr "sync" ->
      get b1 "speed" = get b2 "speed" -> control b1 w = control b2 w).
Proof.
  intros Hs. split.
  - intros H1 H2. unfold control.
    rewrite (handler_dispatch b1 w "play" H1 eq_refl (selection_saved_found b1 w Hs)).
    rewrite (handler_dispatch b2 w "play" H2 eq_refl (selection_saved_found b2 w Hs)).
    reflexivity.
  - intros H1 H2 Hv. unfold control.
    rewrite (handler_dispatch b1 w "sync" H1 eq_refl (selection_saved_found b1 w Hs)).
    rewrite (handler_dispatch b2 w "sync" H2 eq_refl (selection_saved_found b2 w Hs)).
    change (dispatch b1 (JStr "sync") ?m ?s ?x) with (sync ;; setSpeed b1).
    change (dispatch b2 (JStr "sync") ?m ?s ?x) with (sync ;; setSpeed b2).
    unfold bind, setSpeed. rewrite Hv. reflexivity.
Qed.

Lemma play_ignores_request_paths_witness :
  control (request "play" [("masterFile", JStr "other.mp4")]) studio =
  control (request "play" []) studio.
Proof.
  apply (proj1 (play_ignores_request_paths
                  (request "play" [("masterFile", JStr "other.mp4")])
                  (request "play" []) studio ltac:(vm_compute; reflexivity)));
    reflexivity.
Defined.




(** ** Saving, then using, a selection *)



(** ** Stop and the speed *)

(** X18.  A [stop] request that finds its paths sends [pl_stop] to the
    master and to the slave without querying either, and succeeds. *)
Theorem stop_unconditional (body : object) (w : world) :
  get body "command" = JStr "stop" -> paths_found body w = true ->
  control body w =
  (Responded (message "Both players stopped."),
   after w [Send Master pl_stop; Send Slave pl_stop]).
Proof.
  intros Hc Hp. unfold control.
  rewrite (handler_dispatch body w "stop" Hc eq_refl Hp).
  change (dispatch body (JStr "stop") ?m ?s ?x) with stop.
  unfold stop. step. reflexivity.
Qed.

Lemma stop_unconditional_witness :
  control (request "stop" []) master_down =
  (Responded (message "Both players stopped."),
   after master_down [Send Master pl_stop; Send Slave pl_stop]).
Proof. apply (stop_unconditional (request "stop" []) master_down); reflexivity. Defined.

(** X19.  [resetSpeed] does to the players what [setSpeed] does with the
    speed "1.0": the rate 1.0 on the master, then on the slave, then a wait
    of 200 ms; it needs no [speed] and never fails. *)
Theorem reset_is_set_to_one (b1 b2 : object) (w : world) :
  get b1 "command" = JStr "resetSpeed" -> paths_found b1 w = true ->
  get b2 "command" = JStr "setSpeed" -> paths_found b2 w = true ->
  get b2 "speed" = JStr "1.0" ->
  control b1 w =
  (Responded (message "Speed reset to 1.0x on both players."),
   after w [Send Master (rate "1.0"); Send Slave (rate "1.0"); Wait 200])
  /\ snd (control b2 w) = snd (control b1 w).
Proof.
  intros H1 P1 H2 P2 Hv.
  assert (V : valid_speed (JStr "1.0") = true) by (vm_compute; reflexivity).
  assert (E1 : control b1 w =
               (Responded (message "Speed reset to 1.0x on both players."),
                after w [Send Master (rate "1.0"); Send Slave (rate "1.0"); Wait 200])).
  { unfold control. rewrite (handler_dispatch b1 w "resetSpeed" H1 eq_refl P1).
    change (dispatch b1 (JStr "resetSpeed") ?m ?s ?x) with resetSpeed.
    unfold resetSpeed. step. reflexivity. }
  split; [exact E1|]. rewrite E1. unfold control.
  rewrite (handler_dispatch b2 w "setSpeed" H2 eq_refl P2).
  change (dispatch b2 (JStr "setSpeed") ?m ?s ?x) with (setSpeed b2).
  rewrite setSpeed_run, Hv, V. reflexivity.
Qed.

Lemma reset_is_set_to_one_witness :
  snd (control (request "setSpeed" [("speed", JStr "1.0")]) studio)
  = snd (control (request "resetSpeed" []) studio).
Proof.
  apply (proj2 (reset_is_set_to_one (request "resetSpeed" [])
                  (request "setSpeed" [("speed", JStr "1.0")]) studio
                  eq_refl ltac:(vm_compute; reflexivity)
                  eq_refl ltac:(vm_compute; reflexivity) eq_refl)).
Defined.

(** ** The lines of [paths.txt] *)

Lemma split_lines_crlf (b : string) :
  Str.split_lines (String Str.CR (String Str.LF b)) = EmptyString :: Str.split_lines b.
Proof.
  assert (P : prefix (String Str.LF EmptyString) (String Str.LF b) = true)
    by apply (prefix_app (String Str.LF EmptyString) b).
  change (Str.split_lines (String Str.CR (String Str.LF b)))
    with (if (Str.CR =? Str.CR)%char && prefix (String Str.LF EmptyString) (String Str.LF b)
          then Str.split_lines (String Str.LF b)
          else Str.push Str.CR (Str.split_lines (String Str.LF b))).
  rewrite P. reflexivity.
Qed.

Lemma split_lines_app_crlf (a b : string) :
  no_line_break a = true ->
  Str.split_lines (a ++ String Str.CR (String Str.LF b)) = a :: Str.split_lines b.
Proof.
  induction a as [|c r IH].
  - intros _. apply split_lines_crlf.
  - unfold no_line_break. cbn [list_ascii_of_string forallb].
    intros H. apply andb_prop in H. destruct H as [Hc Hr].
    apply negb_true_iff, orb_false_elim in Hc. destruct Hc as [Hlf Hcr].
    cbn [String.append Str.split_lines]. rewrite Hlf, Hcr. cbn [andb].
    rewrite (IH Hr). reflexivity.
Qed.

Lemma split_joined (ls : list string) :
  ls <> [] -> forallb no_line_break ls = true ->
  Str.split_lines (join LF_sep ls) = ls /\ Str.split_lines (join CRLF_sep ls) = ls.
Proof.
  intros Hn. induction ls as [|l r IH]; [congruence|]. clear Hn.
  cbn [forallb]. intros H. apply andb_prop in H. destruct H as [Hl Hr].
  destruct r as [|l' r'].
  - cbn [join]. split; now apply split_lines_one.
  - destruct (IH ltac:(discriminate) Hr) as [I1 I2].
    change (join LF_sep (l :: l' :: r')) with (l ++ String Str.LF (join LF_sep (l' :: r'))).
    change (join CRLF_sep (l :: l' :: r'))
      with (l ++ String Str.CR (String Str.LF (join CRLF_sep (l' :: r')))).
    rewrite (split_lines_app l _ Hl), (split_lines_app_crlf l _ Hl), I1, I2. auto.
Qed.

(** X20.  Splitting at line ends undoes joining: lines without a line
    break, joined by LF or by CR LF, are split back into the same lines by
    the split of [readPaths]. *)
Theorem split_join (ls : list string) :
  ls <> [] -> forallb no_line_break ls = true ->
  Str.split_lines (join LF_sep ls) = ls /\ Str.split_lines (join CRLF_sep ls) = ls.
Proof. exact (split_joined ls). Qed.

Lemma split_join_witness :
  Str.split_lines (join LF_sep hand_written) = hand_written
  /\ Str.split_lines (join CRLF_sep hand_written) = hand_written.
Proof. apply (split_join hand_written); [discriminate | reflexivity]. Defined.

Lemma remove_first_prefix (pat s : string) :
  prefix pat s = true -> Str.remove_first pat s = Str.drop (length pat) s.
Proof. intros H. destruct s; cbn [Str.remove_first]; now rewrite H. Qed.

Lemma read_line_master acc l :
  masterFile (read_line acc l) =
  if Str.startsWith l MASTER_KEY then Str.drop (length MASTER_KEY) l else masterFile acc.
Proof.
  unfold read_line, Str.startsWith.
  destruct (prefix MASTER_KEY l) eqn:M, (prefix SLAVE_KEY l) eqn:S; cbn [masterFile];
    rewrite ?(remove_first_prefix _ _ M); reflexivity.
Qed.

Lemma read_line_slave acc l :
  slaveFile (read_line acc l) =
  if Str.startsWith l SLAVE_KEY then Str.drop (length SLAVE_KEY) l else slaveFile acc.
Proof.
  unfold read_line, Str.startsWith.
  destruct (prefix MASTER_KEY l) eqn:M, (prefix SLAVE_KEY l) eqn:S; cbn [slaveFile];
    rewrite ?(remove_first_prefix _ _ S); reflexivity.
Qed.

Lemma last_value_snoc key ls l :
  last_value key (ls ++ [l]) =
  if Str.startsWith l key then Str.drop (length key) l else last_value key ls.
Proof.
  unfold last_value. rewrite rev_unit. cbn [find].
  destruct (Str.startsWith l key); reflexivity.
Qed.

Lemma read_lines (ls : list string) :
  fold_left read_line ls no_paths =
  {| masterFile := last_value MASTER_KEY ls; slaveFile := last_value SLAVE_KEY ls |}.
Proof.
  induction ls as [|l ls IH] using rev_ind; [reflexivity|].
  rewrite fold_left_app. cbn [fold_left]. rewrite IH, !last_value_snoc.
  rewrite <- read_line_master with (acc := {| masterFile := last_value MASTER_KEY ls;
                                              slaveFile := last_value SLAVE_KEY ls |}).
  rewrite <- read_line_slave with (acc := {| masterFile := last_value MASTER_KEY ls;
                                             slaveFile := last_value SLAVE_KEY ls |}).
  destruct (read_line _ l); reflexivity.
Qed.

(** X21.  [readPaths] takes the lines of [paths.txt] in any order, with LF
    or CR LF line ends: each path is what follows its key on the last line
    that starts with the key, lines that start with neither key are passed
    over, and a key without a line gives the empty string. *)
Theorem paths_file_format (ls : list string) :
  ls <> [] -> forallb no_line_break ls = true ->
  let found := {| masterFile := last_value MASTER_KEY ls;
                  slaveFile := last_value SLAVE_KEY ls |} in
  parse_paths (join LF_sep ls) = found /\ parse_paths (join CRLF_sep ls) = found.
Proof.
  intros Hn Hl found. destruct (split_joined ls Hn Hl) as [E1 E2].
  unfold parse_paths. rewrite E1, E2, read_lines. auto.
Qed.

Lemma paths_file_format_witness :
  parse_paths (join CRLF_sep hand_written) =
  {| masterFile := "a.mp4"; slaveFile := "b.mp4" |}.
Proof.
  apply (proj2 (paths_file_format hand_written ltac:(discriminate) eq_refl)).
Defined.

(** ** Loading the files again *)

Lemma playing_spared (d : json) :
  truthy d = true -> playing d = true -> should_load d = false.
Proof.
  unfold playing, should_load. intros -> H.
  destruct (field d "state") as [| | b | n | x]; try discriminate H.
  cbn [strict_eq] in *. apply String.eqb_eq in H. subst x. reflexivity.
Qed.

(** X22.  [forceLoadCorrectFiles] queries both players.  With file names
    free of lone surrogates it never throws: a player that answers and is
    playing is sent nothing, a player that does not answer is sent its
    file, and when nothing is sent nothing is waited for.  A file name
    with a lone surrogate is a URIError as soon as that file has to be
    loaded, before the load is sent; it is harmless for a player that
    need not load. *)
Theorem force_load_spares_playing (masterFile slaveFile : value) (w : world) :
  let sm := next_master w in
  let ss := next_slave w in
  (Str.lone_surrogate (ToString masterFile) = false ->
   Str.lone_surrogate (ToString slaveFile) = false ->
   exists evs,
     forceLoadCorrectFiles masterFile slaveFile w = (Next tt, after (queried w) evs)
     /\ (truthy sm = true -> playing sm = true -> existsb to_master evs = false)
     /\ (truthy ss = true -> playing ss = true -> existsb to_slave evs = false)
     /\ (existsb to_master evs = false -> existsb to_slave evs = false -> evs = [])
     /\ (truthy sm = false ->
         In (Send Master (in_play (Str.encodeURIComponent (ToString masterFile)))) evs)
     /\ (truthy ss = false ->
         In (Send Slave (in_play (Str.encodeURIComponent (ToString slaveFile)))) evs))
  /\ (should_load sm = true -> Str.lone_surrogate (ToString masterFile) = true ->
      forceLoadCorrectFiles masterFile slaveFile w = (Throw URIError, queried w))
  /\ (should_load sm = true -> Str.lone_surrogate (ToString masterFile) = false ->
      should_load ss = true -> Str.lone_surrogate (ToString slaveFile) = true ->
      forceLoadCorrectFiles masterFile slaveFile w =
      (Throw URIError,
       after (queried w)
             [Send Master (in_play (Str.encodeURIComponent (ToString masterFile)))]))
  /\ (should_load sm = false ->
      should_load ss = true -> Str.lone_surrogate (ToString slaveFile) = true ->
      forceLoadCorrectFiles masterFile slaveFile w = (Throw URIError, queried w))
  /\ (should_load sm = false -> should_load ss = false ->
      forceLoadCorrectFiles masterFile slaveFile w = (Next tt, queried w)).
Proof.
  intros sm ss. unfold forceLoadCorrectFiles. rewrite query_both. fold sm ss.
  unfold encodeURIComponent.
  split; [|split; [|split; [|split]]].
  - intros Wm Ws. rewrite Wm, Ws.
    assert (Nm : truthy sm = false -> should_load sm = true)
      by (intros T; unfold should_load; now rewrite T).
    assert (Ns : truthy ss = false -> should_load ss = true)
      by (intros T; unfold should_load; now rewrite T).
    assert (Pm := playing_spared sm). assert (Ps := playing_spared ss).
    destruct (should_load sm), (should_load ss); cbn [orb]; step;
      [ eexists | eexists | eexists | exists []; rewrite after_nil ];
      (split; [reflexivity|]); cbn [existsb to_master to_slave orb In];
      repeat split; intros; auto; try discriminate;
      try (specialize (Pm ltac:(assumption) ltac:(assumption)); discriminate);
      try (specialize (Ps ltac:(assumption) ltac:(assumption)); discriminate);
      try (specialize (Nm ltac:(assumption)); discriminate);
      try (specialize (Ns ltac:(assumption)); discriminate).
  - intros -> ->. step. reflexivity.
  - intros -> -> -> ->. step. reflexivity.
  - intros -> -> ->. step. reflexivity.
  - intros -> ->. step. reflexivity.
Qed.

Lemma force_load_spares_playing_witness :
  (exists evs,
     forceLoadCorrectFiles (JStr "a.mp4") (JStr "b.mp4") master_down =
     (Next tt, after (queried master_down) evs)
     /\ In (Send Master (in_play (Str.encodeURIComponent "a.mp4"))) evs
     /\ existsb to_slave evs = false)
  /\ forceLoadCorrectFiles (JStr torn) (JStr "b.mp4") master_down =
     (Throw URIError, queried master_down)
  /\ forceLoadCorrectFiles (JStr torn) (JStr torn) studio = (Next tt, queried studio).
Proof.
  split; [|split].
  - destruct (proj1 (force_load_spares_playing (JStr "a.mp4") (JStr "b.mp4") master_down)
                    ltac:(vm_compute; reflexivity) ltac:(vm_compute; reflexivity))
      as (evs & E & _ & S & _ & M & _).
    exists evs. split; [exact E|]. split.
    + apply M. reflexivity.
    + apply S; reflexivity.
  - apply (proj1 (proj2 (force_load_spares_playing (JStr torn) (JStr "b.mp4") master_down)));
      vm_compute; reflexivity.
  - apply (proj2 (proj2 (proj2 (proj2
             (force_load_spares_playing (JStr torn) (JStr torn) studio)))));
      vm_compute; reflexivity.
Defined.

(** X23.  [isFullscreen] never throws and never gives [undefined]: it gives
    the [fullscreen] field of the status when there is one, and -1 when
    the player does not answer or the field is missing. *)
Theorem isFullscreen_defined (p : participant) (w : world) :
  let d := match p with Master => next_master w | Slave => next_slave w end in
  exists v,
    isFullscreen p w =
    (Next v, match p with Master => master_queried w | Slave => slave_queried w end)
    /\ v <> undefined
    /\ (truthy d = false \/ field d "fullscreen" = undefined -> v = JNum (of_Z (-1)))
    /\ (truthy d = true -> field d "fullscreen" <> undefined -> v = field d "fullscreen").
Proof.
  intros d. unfold isFullscreen, bind.
  assert (E : getVLCStatus p w =
              (Next d, match p with Master => master_queried w | Slave => slave_queried w end))
    by (destruct p; reflexivity).
  rewrite E. unfold ret. eexists. split; [reflexivity|].
  destruct (truthy d) eqn:T; cbn [andb].
  - destruct (field d "fullscreen") eqn:F; cbn [is_undefined negb];
      repeat split; try discriminate; try congruence; intros [H | H]; congruence.
  - repeat split; try discriminate; congruence.
Qed.
